(** * Grasp synthesis: mask-based scoring and boundary-fit pair search

    A shallow embedding of the two geometric pipelines of the repository:

    - [mask_based_algo_module/grasp_mask.py] (class [GraspMask]): mask
      bank construction, depth normalisation, rotated scoring, ranking;
    - [top_surface_algo/scripts/pyefd.py] ([get_grasp]): contour
      segmentation, densification and the contact-pair filter.

    The Python code computes with IEEE-754 floating point numbers.  The
    definitions below are written once over an interface of arithmetic
    operations ([Arith]) and are instantiated three ways:

    - at binary64/binary32 ([spec_float], the executable IEEE-754 model of
      the standard library), which is the arithmetic the code runs;
    - at [Q], exact and executable, for the facts that need algebra;
    - at [R], exact, where square roots and trigonometry are needed.

    Python 3 semantics is assumed throughout ([/] is true division). *)

From Stdlib Require Import ZArith QArith Qround Qabs Reals Lra Lia List Bool.
From Stdlib Require Import Permutation Sorted SpecFloat.
Import ListNotations.

Set Implicit Arguments.

(** ** Python exceptions and results *)

Inductive exn : Type :=
| IndexError         (* list index out of range *)
| ValueError         (* negative dimensions, empty reduction, int(nan) *)
| OverflowError      (* int(inf) *)
| NoGraspFoundError. (* named by the specification; no code path raises it *)

Inductive result (A : Type) : Type :=
| Raise (e : exn)
| Ok (a : A).
Arguments Raise {A} e.
Arguments Ok {A} a.

Definition bind {A B} (m : result A) (k : A -> result B) : result B :=
  match m with
  | Raise e => Raise e
  | Ok a => k a
  end.

Notation "x <- m ;; k" := (bind m (fun x => k))
  (at level 61, m at next level, right associativity).
Notation "' p <- m ;; k" := (bind m (fun p => k))
  (at level 61, p pattern, m at next level, right associativity).

(** [l[i]] for a Python list and a non-negative index. *)
Definition getitem {A} (l : list A) (i : nat) : result A :=
  match nth_error l i with
  | Some a => Ok a
  | None => Raise IndexError
  end.

(** ** The arithmetic interface *)

Class Arith (F : Type) : Type := {
  add : F -> F -> F;
  sub : F -> F -> F;
  mul : F -> F -> F;
  div : F -> F -> F;
  neg : F -> F;            (* unary minus *)
  ltb : F -> F -> bool;    (* [x < y]; false as soon as one side is NaN *)
  isnan : F -> bool;
  of_Z : Z -> F;           (* an integer literal, or an int promoted to float *)
  to_int : F -> result Z   (* Python's [int(x)]: truncation toward zero *)
}.

Declare Scope num_scope.
Delimit Scope num_scope with num.
Notation "x + y" := (add x y) : num_scope.
Notation "x - y" := (sub x y) : num_scope.
Notation "x * y" := (mul x y) : num_scope.
Notation "x / y" := (div x y) : num_scope.
Notation "- x" := (neg x) : num_scope.
Notation "x <? y" := (ltb x y) : num_scope.
Notation "x >? y" := (ltb y x) : num_scope.

(** A decimal literal [n/d] of the source, e.g. [0.08 = dec 8 100]: the
    correctly rounded quotient of two exactly represented integers is the
    float nearest to the decimal, which is what Python's parser produces. *)
Definition dec {F} `{Arith F} (n d : Z) : F := (of_Z n / of_Z d)%num.

(** *** Exact rationals *)

#[export] Instance Q_Arith : Arith Q := {
  add := Qplus;
  sub := Qminus;
  mul := Qmult;
  div := Qdiv;
  neg := Qopp;
  ltb := fun x y => negb (Qle_bool y x);
  isnan := fun _ => false;
  of_Z := inject_Z;
  to_int := fun x => Ok (Z.quot (Qnum x) (Zpos (Qden x)))
}.

(** *** IEEE-754 binary floating point *)

Module IEEE.

Section Format.
Variables prec emax : Z.

Definition f_of_Z (z : Z) : spec_float := binary_normalize prec emax z 0 false.

Definition f_isnan (x : spec_float) : bool :=
match x with S754_nan => true | _ => false end.

(** [int(x)] on a float: the integer part, [ValueError] on NaN,
  [OverflowError] on an infinity. *)
Definition f_to_int (x : spec_float) : result Z :=
match x with
| S754_nan => Raise ValueError
| S754_infinity _ => Raise OverflowError
| S754_zero _ => Ok 0%Z
| S754_finite s m e =>
    let a := match e with
             | Zneg p => Z.shiftr (Zpos m) (Zpos p)
             | _ => Z.shiftl (Zpos m) e
             end in
    Ok (if s then Z.opp a else a)
end.

Definition F_Arith : Arith spec_float := {|
add := SFadd prec emax;
sub := SFsub prec emax;
mul := SFmul prec emax;
div := SFdiv prec emax;
neg := SFopp;
ltb := SFltb;
isnan := f_isnan;
of_Z := f_of_Z;
to_int := f_to_int
|}.
End Format.

End IEEE.

Definition binary64 : Arith spec_float := IEEE.F_Arith 53 1024.
Definition binary32 : Arith spec_float := IEEE.F_Arith 24 128.

(** *** Real numbers *)

Definition Rltb (x y : R) : bool := if Rlt_dec x y then true else false.

(** Truncation toward zero on the reals. *)
Definition Rtrunc (x : R) : Z :=
  if Rle_dec 0 x then Int_part x else Z.opp (Int_part (- x)).

#[export] Instance R_Arith : Arith R := {
  add := Rplus;
  sub := Rminus;
  mul := Rmult;
  div := Rdiv;
  neg := Ropp;
  ltb := Rltb;
  isnan := fun _ => false;
  of_Z := IZR;
  to_int := fun x => Ok (Rtrunc x)
}.

(** Square root, used by the boundary-fit pipeline only. *)
Class Sqrt (F : Type) : Type := sqrt_of : F -> F.

#[export] Instance R_Sqrt : Sqrt R := sqrt.
Definition binary64_Sqrt : Sqrt spec_float := SFsqrt 53 1024.

(** ** Two-dimensional numpy arrays

    The shape is stored next to the rows: an array with no row still has
    a column count. *)

Record ndarray (F : Type) : Type := mk_ndarray {
  shape : Z * Z;              (* (rows, columns), as [a.shape] *)
  rows : list (list F)
}.
Arguments mk_ndarray {F} shape rows.

Section NdArray.
Context {F : Type} `{Arith F}.

(** [np.ones((h, w))]. *)
Definition np_ones (h w : Z) : result (ndarray F) :=
if ((h <? 0) || (w <? 0))%Z then Raise ValueError
else Ok (mk_ndarray (h, w)
           (repeat (repeat (of_Z 1) (Z.to_nat w)) (Z.to_nat h))).

Definition map_array (f : F -> F) (a : ndarray F) : ndarray F :=
mk_ndarray (shape a) (map (map f) (rows a)).

(** [a * c] and [a / c] for a scalar [c]. *)
Definition scale (a : ndarray F) (c : F) : ndarray F :=
map_array (fun x => (x * c)%num) a.
Definition unscale (a : ndarray F) (c : F) : ndarray F :=
map_array (fun x => (x / c)%num) a.

(** [np.concatenate((a, b), axis=0)]: the column counts must agree. *)
Definition concat2 (a b : ndarray F) : result (ndarray F) :=
if (snd (shape a) =? snd (shape b))%Z
then Ok (mk_ndarray ((fst (shape a) + fst (shape b))%Z, snd (shape a))
           (rows a ++ rows b))
else Raise ValueError.

Fixpoint concatenate (a : ndarray F) (l : list (ndarray F)) : result (ndarray F) :=
match l with
| [] => Ok a
| b :: l' => ab <- concat2 a b ;; concatenate ab l'
end.

(** The shape recorded in the array is the shape of its rows. *)
Definition well_shaped (a : ndarray F) : Prop :=
Z.of_nat (length (rows a)) = fst (shape a) /\
Forall (fun r => Z.of_nat (length r) = snd (shape a)) (rows a).
End NdArray.

(** ** grasp_mask.py: the mask bank *)

Module GraspMask.

Section Masks.
Context {F : Type} `{Arith F}.
Local Open Scope num_scope.

(** [self.mask_sizes = [1024/i for i in range(4, 20, 4)]] *)
Definition default_mask_sizes : list F :=
map (fun i => of_Z 1024 / of_Z i) [4; 8; 12; 16]%Z.

(** [self.weights = [1, 2, 3, 4, 5]] *)
Definition default_weights : list Z := [1; 2; 3; 4; 5]%Z.

(** One of the five bands of a mask:
  [np.ones((int(size/5), int(3*size/5))) * v]. *)
Definition band (size : F) (v : Z) : result (ndarray F) :=
h <- to_int (size / of_Z 5) ;;
w <- to_int (of_Z 3 * size / of_Z 5) ;;
ones <- np_ones h w ;;
Ok (scale ones (of_Z v)).

(** The five bands stacked and normalised, before the weight is applied:
  [np.concatenate((mask1, ..., mask5), axis=0) / ((3/2) * size * size)]. *)
Definition base_mask (size : F) : result (ndarray F) :=
mask1 <- band size (-1) ;;
mask2 <- band size 0 ;;
mask3 <- band size 1 ;;
mask4 <- band size 0 ;;
mask5 <- band size (-1) ;;
stacked <- concatenate mask1 [mask2; mask3; mask4; mask5] ;;
Ok (unscale stacked ((of_Z 3 / of_Z 2) * size * size)).

(** The body of the loop of [generate_masks] at index [i]. *)
Definition mask_at (mask_sizes : list F) (weights : list Z) (i : nat)
: result (ndarray F) :=
size <- getitem mask_sizes i ;;
mask <- base_mask size ;;
w <- getitem weights i ;;
Ok (scale mask (of_Z w)).

(** [for i in range(len(self.mask_sizes))]: the indices still to visit
  are [i, i+1, ..., i+n-1]; the first exception aborts the loop. *)
Fixpoint masks_from (mask_sizes : list F) (weights : list Z) (i n : nat)
: result (list (ndarray F)) :=
match n with
| O => Ok []
| S n' =>
    mask <- mask_at mask_sizes weights i ;;
    rest <- masks_from mask_sizes weights (S i) n' ;;
    Ok (mask :: rest)
end.

Definition generate_masks (mask_sizes : list F) (weights : list Z)
: result (list (ndarray F)) :=
masks_from mask_sizes weights 0 (length mask_sizes).

(** The bank expected from base masks [bs] and weights [ws]: the i-th
  base mask scaled by the i-th weight, as far as both lists go. *)
Definition weighted (bs : list (ndarray F)) (ws : list Z) : list (ndarray F) :=
map (fun bw => scale (fst bw) (of_Z (snd bw))) (combine bs ws).
End Masks.

End GraspMask.

(** ** Python's [sorted]

    [sorted(l, key=k)] and [sorted(l, key=k, reverse=True)] are stable and
    compare keys with [<] only.  The model is the insertion sort that
    meets this contract: an element is placed in front of the first
    element of the already sorted tail that must not precede it. *)

Section Sorted.
Variables (A K : Type) (lt : K -> K -> bool) (key : A -> K).

(** [goes_before reverse x y]: [x], met earlier in the input than [y],
  stays in front of [y]. *)
Definition goes_before (reverse : bool) (x y : A) : bool :=
if reverse then negb (lt (key x) (key y)) else negb (lt (key y) (key x)).

Fixpoint insert_sorted (reverse : bool) (x : A) (l : list A) : list A :=
match l with
| [] => [x]
| y :: l' =>
    if goes_before reverse x y then x :: y :: l'
    else y :: insert_sorted reverse x l'
end.

Fixpoint sorted (reverse : bool) (l : list A) : list A :=
match l with
| [] => []
| x :: l' => insert_sorted reverse x (sorted reverse l')
end.
End Sorted.


(** ** grasp_mask.py: normalisation, scoring and ranking *)

Module GraspMaskRun.
Import GraspMask.

Inductive GraspMaskMode : Type :=
| ALL_ROTATIONS
| MAJOR_COMPONENT_IMAGE
| MAJOR_COMPONENT_MASK.

(** The fields of a [GraspMask] object that the scoring code reads or
    writes ([self.bridge] and the subscription are transport). *)
Record GraspMask (F : Type) : Type := mk_GraspMask {
  top_k : Z;
  grasp_mode : GraspMaskMode;
  angles : list F;
  mask_sizes : list F;
  weights : list Z;
  masks : list (ndarray F)
}.
Arguments mk_GraspMask {F}.

(** A grasp candidate [(score, x, y, width, height, angle)]. *)
Record grasp (F : Type) : Type := mk_grasp {
  g_score : Z;      (* an 8-bit response of [cv2.filter2D] *)
  g_x : Z;
  g_y : Z;
  g_rows : Z;       (* [mask.shape[0]] *)
  g_cols : Z;       (* [mask.shape[1]] *)
  g_angle : F
}.
Arguments mk_grasp {F}.

Section Normalize.
Context {F : Type} `{Arith F}.
Local Open Scope num_scope.

(** [np.minimum] and [np.maximum] on scalars: a NaN on the left wins,
  a NaN on the right wins because the comparison fails. *)
Definition minimum (a b : F) : F := if isnan a then a else if a <? b then a else b.
Definition maximum (a b : F) : F := if isnan a then a else if a >? b then a else b.

(** [np.min(a)] and [np.max(a)] over all the samples of a frame; a
  reduction over an empty array raises [ValueError]. *)
Definition np_min (a : list (list F)) : result F :=
match concat a with
| [] => Raise ValueError
| x :: l => Ok (fold_left minimum l x)
end.
Definition np_max (a : list (list F)) : result F :=
match concat a with
| [] => Raise ValueError
| x :: l => Ok (fold_left maximum l x)
end.

(** [np.uint8(x)] on a float: the C conversion, which truncates toward
  zero.  Outside [0, 256) and on NaN the C result is platform defined;
  the model wraps modulo 256 and sends non-finite values to 0. *)
Definition np_uint8 (x : F) : Z :=
match to_int x with
| Ok z => (z mod 256)%Z
| Raise _ => 0%Z
end.

(** One sample of
  [(depth_image - np.min(depth_image)) * 255 / (np.max(depth_image) - np.min(depth_image))]
  followed by [np.uint8]. *)
Definition normalize_px (lo hi x : F) : Z :=
np_uint8 ((x - lo) * of_Z 255 / (hi - lo)).

Definition normalize_depth (depth_image : list (list F)) : result (list (list Z)) :=
lo <- np_min depth_image ;;
hi <- np_max depth_image ;;
Ok (map (map (normalize_px lo hi)) depth_image).
End Normalize.

Section Scoring.
Context {F : Type} `{Arith F}.
Local Open Scope num_scope.

(** A 2x3 affine matrix, as returned by [cv2.getRotationMatrix2D]. *)
Definition affine : Type := (F * F * F) * (F * F * F).

(** [M @ np.array([a, b, 1])] *)
Definition affine_apply (M : affine) (a b : F) : F * F :=
let '((m00, m01, m02), (m10, m11, m12)) := M in
(m00 * a + m01 * b + m02 * of_Z 1, m10 * a + m11 * b + m12 * of_Z 1).

(** [np.argmax] of the flattened image: the first index of the maximum. *)
Fixpoint argmax_from (best_i : nat) (best : Z) (i : nat) (l : list Z) : nat :=
match l with
| [] => best_i
| v :: l' =>
    if (best <? v)%Z then argmax_from i v (S i) l'
    else argmax_from best_i best (S i) l'
end.

Definition np_argmax (img : list (list Z)) : result nat :=
match concat img with
| [] => Raise ValueError
| v :: l => Ok (argmax_from 0 v 1 l)
end.

(** [np.unravel_index(idx, shape)] for a 2D shape. *)
Definition unravel_index (idx : nat) (width : nat) : nat * nat :=
(Nat.div idx width, Nat.modulo idx width).

Definition width_of (img : list (list Z)) : nat :=
match img with [] => 0 | r :: _ => length r end.

Definition calculate_best_grasp (filtered_rotated : list (list Z))
  (inv_affine_trans : affine) : result (Z * Z * Z) :=
max_idx <- np_argmax filtered_rotated ;;
let max_loc := unravel_index max_idx (width_of filtered_rotated) in
let max_loc_original_frame :=
  affine_apply inv_affine_trans
    (of_Z (Z.of_nat (snd max_loc))) (of_Z (Z.of_nat (fst max_loc))) in
score <- getitem (concat filtered_rotated) max_idx ;;
x <- to_int (snd max_loc_original_frame) ;;
y <- to_int (fst max_loc_original_frame) ;;
Ok (score, x, y).

(** The OpenCV and LAPACK routines the method calls are parameters. *)
Variable Contour : Type.
Variable get_largest_contour : list (list Z) -> result Contour.
(** [get_major_directions] followed by the [arctan2 ... * 180 / np.pi] of
  the caller: the contour mean and the major component angle. *)
Variable get_major_directions : Contour -> list (list Z) -> (F * F) * F.
Variable getRotationMatrix2D : F * F -> F -> affine.
Variable warpAffine : list (list Z) -> affine -> list (list Z).
Variable filter2D : list (list Z) -> ndarray F -> list (list Z).
Variable pi : F.

(** The inner loop: [for mask in self.masks]. *)
Fixpoint score_masks (depth_rotated : list (list Z)) (inv_affine_trans : affine)
  (angle : F) (ms : list (ndarray F)) : result (list (grasp F)) :=
match ms with
| [] => Ok []
| mask :: ms' =>
    let filtered_rotated := filter2D depth_rotated mask in
    '(score, x, y) <- calculate_best_grasp filtered_rotated inv_affine_trans ;;
    rest <- score_masks depth_rotated inv_affine_trans angle ms' ;;
    Ok (mk_grasp score x y (fst (shape mask)) (snd (shape mask)) angle :: rest)
end.

(** The outer loop: [for angle in self.angles]. *)
Fixpoint score_angles (img : list (list Z)) (contour_mean : F * F)
  (ms : list (ndarray F)) (angs : list F) : result (list (grasp F)) :=
match angs with
| [] => Ok []
| angle :: angs' =>
    let affine_trans := getRotationMatrix2D contour_mean angle in
    let inv_affine_trans := getRotationMatrix2D contour_mean (- angle) in
    let depth_rotated := warpAffine img affine_trans in
    here <- score_masks depth_rotated inv_affine_trans angle ms ;;
    rest <- score_angles img contour_mean ms angs' ;;
    Ok (here ++ rest)
end.

(** [sorted(best_grasps, key=lambda x: x[0], reverse=True)] *)
Definition rank (best_grasps : list (grasp F)) : list (grasp F) :=
sorted Z.ltb (@g_score F) true best_grasps.

(** The assignment to [self.angles] at the head of [get_grasp]. *)
Definition update_angles (self : GraspMask F) (major_component_angle : F)
: GraspMask F :=
let angles' :=
  match grasp_mode self with
  | ALL_ROTATIONS => angles self ++ [major_component_angle]
  | MAJOR_COMPONENT_IMAGE => [major_component_angle]
  | MAJOR_COMPONENT_MASK => [of_Z 0]
  end in
mk_GraspMask (top_k self) (grasp_mode self) angles'
  (mask_sizes self) (weights self) (masks self).

(** What [get_grasp] computes before it touches [self]. *)
Definition analyse (depth_image : list (list F))
: result (list (list Z) * (F * F) * F) :=
original_depth_image_norm <- normalize_depth depth_image ;;
let original_depth_image_norm_inv :=
  map (map (fun v => (255 - v)%Z)) original_depth_image_norm in
largest_contour <- get_largest_contour original_depth_image_norm ;;
let '(contour_mean, major_component_angle) :=
  get_major_directions largest_contour original_depth_image_norm_inv in
Ok (original_depth_image_norm_inv, contour_mean, major_component_angle).

(** The ranked candidates and the returned tuple
  [(x, y, angle*pi/180 + pi/2, mask.shape[0])]; [mask] is the last mask
  of the bank, left over from the loops. *)
Definition score_and_rank (self : GraspMask F) (img : list (list Z))
  (contour_mean : F * F) : result (list (grasp F) * (Z * Z * F * Z)) :=
best_grasps <- score_angles img contour_mean (masks self) (angles self) ;;
let best_grasps := rank best_grasps in
best <- getitem best_grasps 0 ;;
mask <- getitem (rev (masks self)) 0 ;;
Ok (best_grasps,
    (g_x best, g_y best,
     g_angle best * pi / of_Z 180 + pi / of_Z 2, fst (shape mask))).

(** [get_grasp]: the object after the call, and the outcome. *)
Definition get_grasp (self : GraspMask F) (depth_image : list (list F))
: GraspMask F * result (list (grasp F) * (Z * Z * F * Z)) :=
match analyse depth_image with
| Raise e => (self, Raise e)
| Ok (img, contour_mean, major_component_angle) =>
    let self' := update_angles self major_component_angle in
    (self', score_and_rank self' img contour_mean)
end.

(** [__init__]: the configuration of a fresh object. *)
Definition init : result (GraspMask F) :=
let sizes := default_mask_sizes in
ms <- generate_masks sizes default_weights ;;
Ok (mk_GraspMask 1 ALL_ROTATIONS
      (map of_Z (map (fun k => (-90 + 5 * Z.of_nat k)%Z) (seq 0 36)))
      sizes default_weights ms).
End Scoring.

Arguments affine F : clear implicits.

(** [a] is ranked no lower than [b]. *)
Definition outranks (F : Type) (a b : grasp F) : Prop := (g_score b <= g_score a)%Z.


End GraspMaskRun.

(** ** cv2.getRotationMatrix2D

    The matrix of OpenCV's documentation, for a rotation by [angle]
    degrees about [center] at scale [scale]:
    [[alpha, beta, (1 - alpha) * cx - beta * cy],
     [-beta, alpha, beta * cx + (1 - alpha) * cy]]
    with [alpha = scale * cos angle] and [beta = scale * sin angle]. *)

Module Rotation.

Section Matrix.
Context {F : Type} `{Arith F}.
Local Open Scope num_scope.

Definition rotation_matrix (alpha beta : F) (center : F * F)
: GraspMaskRun.affine F :=
let '(cx, cy) := center in
((alpha, beta, (of_Z 1 - alpha) * cx - beta * cy),
 (- beta, alpha, beta * cx + (of_Z 1 - alpha) * cy)).
End Matrix.

Definition getRotationMatrix2D (center : R * R) (angle scale : R)
  : GraspMaskRun.affine R :=
  let a := (angle * PI / 180)%R in
  rotation_matrix (scale * cos a)%R (scale * sin a)%R center.

End Rotation.

(** ** pyefd.py: the boundary-fit pipeline *)

Module Pyefd.

Section Pyefd.
Context {F : Type} `{Arith F} `{Sqrt F}.
Local Open Scope num_scope.

(** [np.arccos], and the curve fit ([elliptic_fourier_descriptors] at
  order 15, [calculate_dc_coefficients] and [get_curve] at 300 samples),
  are parameters: the sampled curve [(xt, yt)] of a contour. *)
Variable arccos : F -> F.
Variable fit_curve : list (F * F) -> list F * list F.

Definition point : Type := F * F.

(** *** Vectors *)

(** [np.dot(u, v)] and [np.linalg.norm(u)] on vectors of two floats. *)
Definition dot (u v : point) : F := fst u * fst v + snd u * snd v.
Definition norm (u : point) : F := sqrt_of (dot u u).
Definition vsub (u v : point) : point := (fst u - fst v, snd u - snd v).

(** *** Segmentation and densification (the head of [get_grasp]) *)

(** [np.diff(a, axis=0)] on a list of points. *)
Fixpoint np_diff (a : list point) : list point :=
match a with
| p :: (q :: _) as t => vsub q p :: np_diff t
| _ => []
end.

(** [np.sqrt(np.sum(np.diff(largest_contour, axis=0)**2, axis=1))] *)
Definition distances (largest_contour : list point) : list F :=
map (fun d => sqrt_of (fst d * fst d + snd d * snd d)) (np_diff largest_contour).

(** [np.where(distances > 0.03)[0]], scanning from index [i]. *)
Fixpoint where_gt (i : nat) (ds : list F) : list nat :=
match ds with
| [] => []
| d :: ds' =>
    if d >? dec 3 100 then i :: where_gt (S i) ds' else where_gt (S i) ds'
end.

(** The slice [a[lo:hi]]. *)
Definition slice {A} (a : list A) (lo hi : nat) : list A :=
firstn (hi - lo) (skipn lo a).

(** [[a[s[i] : s[i+1] + 1] for i in range(len(s) - 1)]] *)
Fixpoint slices (a : list point) (s : list nat) : list (list point) :=
match s with
| lo :: (hi :: _) as t => slice a lo (hi + 1) :: slices a t
| _ => []
end.

Definition subarrays (largest_contour : list point) : list (list point) :=
let split_indices := where_gt 0 (distances largest_contour) in
match split_indices with
| [] => [largest_contour]
| _ => slices largest_contour
         (0%nat :: split_indices ++ [(length largest_contour - 1)%nat])
end.

(** [max(subarrays, key=lambda x: x.shape[0])]: the first of the longest;
  [ValueError] on an empty list. *)
Fixpoint longest_from (best : list point) (l : list (list point)) : list point :=
match l with
| [] => best
| x :: l' =>
    if (length best <? length x)%nat then longest_from x l'
    else longest_from best l'
end.

Definition longest (l : list (list point)) : result (list point) :=
match l with
| [] => Raise ValueError
| x :: l' => Ok (longest_from x l')
end.

Definition midpoint (p q : point) : point :=
((fst p + fst q) / of_Z 2, (snd p + snd q) / of_Z 2).

(** The loop that appends [mid] and [outer_contour[i+1]]. *)
Fixpoint interleave (l : list point) : list point :=
match l with
| p :: (q :: _) as t => midpoint p q :: q :: interleave t
| _ => []
end.

Definition densify (outer_contour : list point) : result (list point) :=
first <- getitem outer_contour 0 ;;
Ok (first :: interleave outer_contour).

(** The contour handed to [get_extremum_points]. *)
Definition preprocess (largest_contour : list point) : result (list point) :=
outer_contour <- longest (subarrays largest_contour) ;;
densify outer_contour.

(** *** Curvature extrema and outward normals ([get_extremum_points]) *)

(** [np.gradient(f)] with unit spacing: one-sided differences at the
  two ends, central differences inside. *)
Fixpoint central (f : list F) : list F :=
match f with
| a :: (_ :: c :: _) as t => (c - a) / of_Z 2 :: central t
| _ => []
end.

Fixpoint last_difference (f : list F) : list F :=
match f with
| [a; b] => [b - a]
| _ :: t => last_difference t
| [] => []
end.

Definition np_gradient (f : list F) : result (list F) :=
match f with
| f0 :: f1 :: _ => Ok ((f1 - f0) :: central f ++ last_difference f)
| _ => Raise ValueError
end.

(** [np.diff] on a list of floats. *)
Fixpoint np_diff1 (a : list F) : list F :=
match a with
| x :: (y :: _) as t => (y - x) :: np_diff1 t
| _ => []
end.

(** [np.where((diff[:-1] > 0) & (diff[1:] < 0))[0] + 1] when [up] is
  true, and the same with the two signs exchanged otherwise. *)
Fixpoint sign_changes (up : bool) (i : nat) (diff : list F) : list nat :=
match diff with
| d0 :: (d1 :: _) as t =>
    let hit := if up then (d0 >? of_Z 0) && (d1 <? of_Z 0)
               else (d0 <? of_Z 0) && (d1 >? of_Z 0) in
    if hit then (i + 1)%nat :: sign_changes up (S i) t
    else sign_changes up (S i) t
| _ => []
end.

Definition find_local_max_min_indices (arr : list F) : list nat * list nat :=
let diff := np_diff1 arr in
(sign_changes true 0 diff, sign_changes false 0 diff).

(** [list(combinations(l, 2))] *)
Fixpoint combinations (l : list nat) : list (nat * nat) :=
match l with
| [] => []
| a :: t => map (pair a) t ++ combinations t
end.

(** One row of [np.dot(rotation_matrix, tangents.T).T] followed by the
  division by its norm. *)
Definition outward_normal (tangent : point) : point :=
let n := (of_Z 0 * fst tangent + of_Z (-1) * snd tangent,
          of_Z 1 * fst tangent + of_Z 0 * snd tangent) in
let len := sqrt_of (fst n * fst n + snd n * snd n) in
(fst n / len, snd n / len).

Record curve : Type := mk_curve {
c_xt : list F;
c_yt : list F;
c_outward_normals : list point;
c_combinations_list : list (nat * nat)
}.

Definition get_extremum_points (largest_contour : list point) : result curve :=
let '(xt, yt) := fit_curve largest_contour in
dxdt <- np_gradient xt ;;
dydt <- np_gradient yt ;;
d2xdt2 <- np_gradient dxdt ;;
d2ydt2 <- np_gradient dydt ;;
let tangents := combine dxdt dydt in
let normals := combine d2xdt2 d2ydt2 in
let curvature := map (fun n => sqrt_of (fst n * fst n + snd n * snd n)) normals in
let '(maxima, minima) := find_local_max_min_indices curvature in
let maxima_minima := maxima ++ minima in
Ok (mk_curve xt yt (map outward_normal tangents) (combinations maxima_minima)).

(** *** The pair filter (the tail of [get_grasp]) *)

(** The argument handed to [np.arccos]. *)
Definition arccos_arg (n1 n2 : point) : F := dot n1 n2 / (norm n1 * norm n2).

(** [np.arccos(...)*180/3.14] *)
Definition angle_between (n1 n2 : point) : F :=
arccos (arccos_arg n1 n2) * of_Z 180 / dec 314 100.

(** [np.mean(a)] *)
Definition np_mean (a : list F) : F :=
fold_left add a (of_Z 0) / of_Z (Z.of_nat (length a)).

(** A retained grasp [[[idx1, idx2], pt_dist + dist]]. *)
Definition scored_pair : Type := (nat * nat) * F.

(** The body of the loop over [combinations_list]: what is appended to
  [grasps] for one combination. *)
Definition examine (c : curve) (combination : nat * nat) : result (list scored_pair) :=
let '(idx1, idx2) := combination in
n1 <- getitem (c_outward_normals c) idx1 ;;
n2 <- getitem (c_outward_normals c) idx2 ;;
let angle := angle_between n1 n2 in
if angle >? of_Z 120 then
  let center := (np_mean (c_xt c), np_mean (c_yt c)) in
  x1 <- getitem (c_xt c) idx1 ;;
  y1 <- getitem (c_yt c) idx1 ;;
  x2 <- getitem (c_xt c) idx2 ;;
  y2 <- getitem (c_yt c) idx2 ;;
  let pt1 := vsub (x1, y1) center in
  let pt2 := vsub (x2, y2) center in
  let pt_dist := norm pt1 + norm pt2 in
  let dist := norm (vsub pt1 pt2) in
  if dist <? dec 8 100 then Ok [((idx1, idx2), pt_dist + dist)]
  else Ok []
else Ok [].

Fixpoint collect (c : curve) (combinations_list : list (nat * nat))
: result (list scored_pair) :=
match combinations_list with
| [] => Ok []
| combination :: rest =>
    here <- examine c combination ;;
    more <- collect c rest ;;
    Ok (here ++ more)
end.

(** From the curve to the returned array [[[x1, y1], [x2, y2]]]. *)
Definition best_pair (c : curve) : result (point * point) :=
grasps <- collect c (c_combinations_list c) ;;
let sorted_grasp := sorted ltb (@snd (nat * nat) F) false grasps in
best_grasp <- getitem sorted_grasp 0 ;;
x1 <- getitem (c_xt c) (fst (fst best_grasp)) ;;
y1 <- getitem (c_yt c) (fst (fst best_grasp)) ;;
x2 <- getitem (c_xt c) (snd (fst best_grasp)) ;;
y2 <- getitem (c_yt c) (snd (fst best_grasp)) ;;
Ok ((x1, y1), (x2, y2)).

Definition get_grasp (largest_contour : list point) : result (point * point) :=
outer_contour <- preprocess largest_contour ;;
c <- get_extremum_points outer_contour ;;
best_pair c.
End Pyefd.

Arguments point F : clear implicits.
Arguments curve F : clear implicits.
Arguments scored_pair F : clear implicits.

(** *** What the pair filter decides, over the reals

    [qualifies c i j s]: the samples [i] and [j] of the curve pass both
    tests of the loop, the angle being measured as the code measures it
    ([acos ... * 180 / 3.14]), and [s] is the score the code gives them. *)

Definition euclid (p q : R * R) : R :=
  sqrt ((fst p - fst q) * (fst p - fst q) + (snd p - snd q) * (snd p - snd q)).

Definition centroid (c : curve R) : R * R := (np_mean (c_xt c), np_mean (c_yt c)).

Definition cost (c : curve R) (p q : R * R) : R :=
  (euclid p (centroid c) + euclid q (centroid c) + euclid p q)%R.

Definition qualifies (c : curve R) (i j : nat) (s : R) : Prop :=
  exists n1 n2 x1 y1 x2 y2,
    nth_error (c_outward_normals c) i = Some n1 /\
    nth_error (c_outward_normals c) j = Some n2 /\
    nth_error (c_xt c) i = Some x1 /\ nth_error (c_yt c) i = Some y1 /\
    nth_error (c_xt c) j = Some x2 /\ nth_error (c_yt c) j = Some y2 /\
    (120 < angle_between acos n1 n2)%R /\
    (euclid (x1, y1) (x2, y2) < 8 / 100)%R /\
    s = cost c (x1, y1) (x2, y2).

(** *** The segmentation as the specification words it

    The sequence is cut between two consecutive points whose distance
    exceeds 0.03, so that no piece holds such a pair; the longest piece is
    kept and densified. *)

Section Specified.
Context {F : Type} `{Arith F} `{Sqrt F}.
Local Open Scope num_scope.

Definition gap (p q : point F) : bool :=
let d := vsub q p in
sqrt_of (fst d * fst d + snd d * snd d) >? dec 3 100.

Fixpoint split_at_gaps (l : list (point F)) : list (list (point F)) :=
match l with
| [] => [[]]
| p :: t =>
    match t with
    | [] => [[p]]
    | q :: _ =>
        if gap p q then [p] :: split_at_gaps t
        else match split_at_gaps t with
             | r :: rs => (p :: r) :: rs
             | [] => [[p]]
             end
    end
end.

Definition preprocess_as_specified (largest_contour : list (point F))
: result (list (point F)) :=
outer_contour <- longest (split_at_gaps largest_contour) ;;
densify outer_contour.

End Specified.

End Pyefd.

(** ** Inputs used by the examples below *)

Module Inputs.
Import Pyefd GraspMaskRun.

(** Two samples 0.01 apart whose outward normals are 119.96 degrees
    apart: [(1, 0)] and the unit vector [(-2698, 4680) / 5402]. *)
Definition narrow_pair : curve R :=
  mk_curve [0; 1 / 100]%R [0; 0]%R
    [(1, 0); (- (2698 / 5402), 4680 / 5402)]%R [(0%nat, 1%nat)].

(** Two samples one unit apart with opposite outward normals. *)
Definition wide_pair : curve R :=
  mk_curve [0; 1]%R [0; 0]%R [(1, 0); (-1, 0)]%R [(0%nat, 1%nat)].

(** A curve with samples and no curvature extremum. *)
Definition no_candidates : curve R :=
  mk_curve [0; 1]%R [0; 0]%R [(0, 1); (0, 1)]%R [].

(** Three points on a line, 0.05 and then 0.01 apart, in double precision. *)
Definition gapped_contour : list (point spec_float) :=
  [(@of_Z _ binary64 0, @of_Z _ binary64 0);
   (@dec _ binary64 5 100, @of_Z _ binary64 0);
   (@dec _ binary64 6 100, @of_Z _ binary64 0)].



(** A [GraspMask] object in its initial mode, with two configured angles
    and an empty bank, over the rationals. *)
Definition small_self : GraspMask Q :=
  mk_GraspMask 1 ALL_ROTATIONS [0; 5]%Q [] [] [].

End Inputs.

(** ** pyefd.py: the elliptic Fourier fit *)

(** Cosine, sine and [np.pi]. *)
Class Trig (F : Type) : Type := {
  cos_of : F -> F;
  sin_of : F -> F;
  pi_of : F
}.

#[export] Instance R_Trig : Trig R := {
  cos_of := cos;
  sin_of := sin;
  pi_of := PI
}.

Module Efd.
Import Pyefd.

Section Efd.
Context {F : Type} `{Arith F} `{Sqrt F} `{Trig F}.
Local Open Scope num_scope.

(** [np.sum(a)] and [np.cumsum(a)] on a list of floats.  numpy chooses
    the order in which [np.sum] adds; the order matters in floating point
    only, and the facts below that depend on a sum are over the reals. *)
Definition np_sum (a : list F) : F := fold_left add a (of_Z 0).

Fixpoint cumsum_from (acc : F) (a : list F) : list F :=
  match a with
  | [] => []
  | x :: a' => (acc + x) :: cumsum_from (acc + x) a'
  end.

Definition np_cumsum (a : list F) : list F :=
  match a with
  | [] => []
  | x :: a' => x :: cumsum_from x a'
  end.

(** [a * b] and [a / b] on two arrays of the same length. *)
Definition mul_arrays (a b : list F) : list F :=
  map (fun xy => fst xy * snd xy) (combine a b).
Definition div_arrays (a b : list F) : list F :=
  map (fun xy => fst xy / snd xy) (combine a b).

(** [dt = np.sqrt((dxy ** 2).sum(axis=1))] *)
Definition segment_lengths (dxy : list (point F)) : list F :=
  map (fun d => sqrt_of (fst d * fst d + snd d * snd d)) dxy.

(** [t = np.concatenate([([0.0]), np.cumsum(dt)])] *)
Definition arclength (dt : list F) : list F := of_Z 0 :: np_cumsum dt.

(** One row [(a, b, c, d)] of the coefficient table, for the harmonic [n]. *)
Definition harmonic (dxy : list (point F)) (dt t : list F) (n : Z)
  : F * F * F * F :=
  let T := last t (of_Z 0) in
  let phi := map (fun ti => (of_Z 2 * pi_of * ti) / T) t in
  let const := T / (of_Z (2 * n * n) * pi_of * pi_of) in
  let phi_n := map (fun p => p * of_Z n) phi in
  let d_cos_phi := np_diff1 (map cos_of phi_n) in
  let d_sin_phi := np_diff1 (map sin_of phi_n) in
  let dx_dt := div_arrays (map fst dxy) dt in
  let dy_dt := div_arrays (map snd dxy) dt in
  (const * np_sum (mul_arrays dx_dt d_cos_phi),
   const * np_sum (mul_arrays dx_dt d_sin_phi),
   const * np_sum (mul_arrays dy_dt d_cos_phi),
   const * np_sum (mul_arrays dy_dt d_sin_phi)).

(** [elliptic_fourier_descriptors(contour, order)]: the rows for the
    harmonics [1 .. order]. *)
Definition elliptic_fourier_descriptors (contour : list (point F)) (order : nat)
  : list (F * F * F * F) :=
  let dxy := np_diff contour in
  let dt := segment_lengths dxy in
  let t := arclength dt in
  map (fun k => harmonic dxy dt t (Z.of_nat (S k))) (seq 0 order).

(** One of the two DC coefficients, from one coordinate [dx] of [dxy]:
    [(1 / T) * np.sum(((dx / (2 * dt)) * np.diff(t ** 2)) + xi * dt)] with
    [xi = np.cumsum(dx) - (dx / dt) * t[1:]]. *)
Definition dc_coefficient (dx dt t : list F) : F :=
  let T := last t (of_Z 0) in
  let xi := map (fun ab => fst ab - snd ab)
              (combine (np_cumsum dx) (mul_arrays (div_arrays dx dt) (tl t))) in
  let t2 := map (fun ti => ti * ti) t in
  let half := div_arrays dx (map (fun d => of_Z 2 * d) dt) in
  (of_Z 1 / T) *
  np_sum (map (fun ab => fst ab + snd ab)
            (combine (mul_arrays half (np_diff1 t2)) (mul_arrays xi dt))).

(** [calculate_dc_coefficients(contour)]; [contour[0, 0]] raises
    [IndexError] on an empty contour. *)
Definition calculate_dc_coefficients (contour : list (point F)) : result (F * F) :=
  let dxy := np_diff contour in
  let dt := segment_lengths dxy in
  let t := arclength dt in
  let A0 := dc_coefficient (map fst dxy) dt t in
  let C0 := dc_coefficient (map snd dxy) dt t in
  first <- getitem contour 0 ;;
  Ok (fst first + A0, snd first + C0).

(** [np.linspace(0, 1.0, n)]: [i * step + 0] with [step = 1 / (n - 1)],
    the last sample being set to [1.0]. *)
Definition np_linspace01 (n : nat) : list F :=
  match n with
  | O => []
  | S O => [of_Z 0]
  | S m =>
      map (fun i => of_Z (Z.of_nat i) * (of_Z 1 / of_Z (Z.of_nat m)) + of_Z 0)
        (seq 0 m) ++ [of_Z 1]
  end.

(** The update of one coordinate array by one harmonic of [get_curve]:
    [xt += (p * np.cos(2*(k+1)*np.pi*t)) + (q * np.sin(2*(k+1)*np.pi*t))]. *)
Definition add_harmonic (t xt : list F) (k : nat) (p q : F) : list F :=
  map (fun xt_t =>
         let w := of_Z (2 * (Z.of_nat k + 1)) * pi_of * snd xt_t in
         fst xt_t + (p * cos_of w + q * sin_of w))
    (combine xt t).

(** The loop of [get_curve] over the rows of [coeffs], from row [k]. *)
Fixpoint add_harmonics (t : list F) (coeffs : list (F * F * F * F)) (k : nat)
    (xt yt : list F) : list F * list F :=
  match coeffs with
  | [] => (xt, yt)
  | (a, b, c, d) :: coeffs' =>
      add_harmonics t coeffs' (S k)
        (add_harmonic t xt k a b) (add_harmonic t yt k c d)
  end.

(** [get_curve(coeffs, locus, n)] *)
Definition get_curve (coeffs : list (F * F * F * F)) (locus : F * F) (n : nat)
  : list F * list F :=
  let t := np_linspace01 n in
  let xt := map (fun one => one * fst locus) (repeat (of_Z 1) n) in
  let yt := map (fun one => one * snd locus) (repeat (of_Z 1) n) in
  add_harmonics t coeffs 0 xt yt.

(** The three calls at the head of [get_extremum_points]: the fit at
    order 15 sampled 300 times. *)
Definition fit (largest_contour : list (point F)) : result (list F * list F) :=
  let coeffs := elliptic_fourier_descriptors largest_contour 15 in
  locus <- calculate_dc_coefficients largest_contour ;;
Ok (get_curve coeffs locus 300).


(** The fit as [get_extremum_points] uses it.  On the empty contour
    [calculate_dc_coefficients] raises; [get_grasp] never hands it one,
    and the sampled curve has no sample there. *)
Definition fit_curve (largest_contour : list (point F)) : list F * list F :=
match fit largest_contour with
| Ok xt_yt => xt_yt
| Raise _ => ([], [])
end.
End Efd.

End Efd.

(** ** The pieces of [subarrays], by recursion on the contour

    [pieces_from cur a]: [cur] holds the points of the piece being built,
    [a] the points still to read.  At a distance above 0.03 between [p]
    and the next point the piece ends with [p], and the next piece starts
    with [p] again. *)

Section Pieces.
Context {F : Type} `{Arith F} `{Sqrt F}.

Fixpoint pieces_from (cur : list (Pyefd.point F)) (a : list (Pyefd.point F))
  : list (list (Pyefd.point F)) :=
  match a with
  | [] => [cur]
  | p :: t =>
      match t with
      | [] => [cur ++ [p]]
      | q :: _ =>
          if Pyefd.gap p q then (cur ++ [p]) :: pieces_from [p] t
          else pieces_from (cur ++ [p]) t
      end
  end.
End Pieces.

(** ** grasp_mask.py: the subscriber callback *)

Module Callback.
Import GraspMaskRun.
Section Callback.
Context {F : Type} `{Arith F}.
Variable Contour : Type.
Variable get_largest_contour : list (list Z) -> result Contour.
Variable get_major_directions : Contour -> list (list Z) -> (F * F) * F.
Variable getRotationMatrix2D : F * F -> F -> affine F.
Variable warpAffine : list (list Z) -> affine F -> list (list Z).
Variable filter2D : list (list Z) -> ndarray F -> list (list Z).
Variable pi : F.

(** [depth_image_callback]: the frame of the message is handed to
    [get_grasp] and the outcome is dropped; the object stays as the call
    left it. *)
Definition depth_image_callback (self : GraspMask F) (depth_image : list (list F))
  : GraspMask F :=
  fst (get_grasp get_largest_contour get_major_directions getRotationMatrix2D
         warpAffine filter2D pi self depth_image).

(** The object after the frames of a topic have been delivered in order. *)
Fixpoint deliver (self : GraspMask F) (frames : list (list (list F))) : GraspMask F :=
  match frames with
  | [] => self
  | depth_image :: frames' => deliver (depth_image_callback self depth_image) frames'
  end.

(** The analysis at the head of [get_grasp] succeeds on the frame. *)
Definition analysable (depth_image : list (list F)) : bool :=
  match analyse get_largest_contour get_major_directions depth_image with
  | Ok _ => true
  | Raise _ => false
  end.
End Callback.
End Callback.

(** ** Auxiliary notions used to state the facts below *)

Section Notions.
Context {F : Type} `{Arith F}.
Local Open Scope num_scope.

(** The test of [find_local_max_min_indices] on two consecutive
    differences. *)
Definition turns (up : bool) (d0 d1 : F) : bool :=
  if up then (d0 >? of_Z 0) && (d1 <? of_Z 0)
  else (d0 <? of_Z 0) && (d1 >? of_Z 0).

(** [n] bounds the indices of every combination of [c], and [c] has [n]
    samples and [n] normals. *)
Definition indices_below (c : Pyefd.curve F) (n : nat) : Prop :=
  length (Pyefd.c_xt c) = n /\ length (Pyefd.c_yt c) = n /\ length (Pyefd.c_outward_normals c) = n /\
  forall i j, In (i, j) (Pyefd.c_combinations_list c) -> (i < n /\ j < n)%nat.

(** The rows of a band whose entries are [x]. *)
Definition block (h w : Z) (x : F) : list (list F) :=
  repeat (repeat x (Z.to_nat w)) (Z.to_nat h).
End Notions.



Close Scope Q_scope.
Close Scope R_scope.

(** * Part II: facts *)

(** * Facts about the mask bank *)

Lemma getitem_nth_error {A} (l : list A) i a :
  nth_error l i = Some a -> getitem l i = Ok a.
Proof. unfold getitem; intros ->; reflexivity. Qed.

Section MaskFacts.
Context {F : Type} {A : Arith F}.
Import GraspMask.

Lemma np_ones_ok (h w : Z) :
  (0 <= h)%Z -> (0 <= w)%Z ->
  np_ones h w = Ok (mk_ndarray (h, w)
                      (repeat (repeat (of_Z 1) (Z.to_nat w)) (Z.to_nat h))).
Proof.
  intros Hh Hw; unfold np_ones.
  destruct (Z.ltb_spec h 0); [lia|]. destruct (Z.ltb_spec w 0); [lia|].
  reflexivity.
Qed.

Lemma well_shaped_map_array (f : F -> F) (a : ndarray F) :
  well_shaped a -> well_shaped (map_array f a).
Proof.
  intros [Hr Hc]; split; simpl.
  - now rewrite length_map.
  - rewrite Forall_map. eapply Forall_impl; [|exact Hc].
    intros r Hlen; simpl in *. now rewrite length_map.
Qed.

Lemma well_shaped_concat2 (a b ab : ndarray F) :
  well_shaped a -> well_shaped b -> concat2 a b = Ok ab ->
  well_shaped ab /\
  shape ab = ((fst (shape a) + fst (shape b))%Z, snd (shape a)).
Proof.
  intros [Ha1 Ha2] [Hb1 Hb2]; unfold concat2.
  destruct (Z.eqb_spec (snd (shape a)) (snd (shape b))) as [E|]; [|discriminate].
  intros [= <-]; split; [split|]; simpl; auto.
  - rewrite length_app; lia.
  - apply Forall_app; split; auto. now rewrite E.
Qed.

Lemma band_ok (size : F) (v h w : Z) :
  to_int (size / of_Z 5)%num = Ok h ->
  to_int (of_Z 3 * size / of_Z 5)%num = Ok w ->
  (0 <= h)%Z -> (0 <= w)%Z ->
  exists b, band size v = Ok b /\ shape b = (h, w) /\ well_shaped b.
Proof.
  intros Hh Hw Ph Pw; unfold band.
  rewrite Hh; cbn [bind]. rewrite Hw; cbn [bind]. rewrite (np_ones_ok Ph Pw); cbn [bind].
  eexists; split; [reflexivity|]; split; [reflexivity|].
  apply well_shaped_map_array; split; simpl.
  - rewrite repeat_length; lia.
  - apply Forall_forall; intros r Hr. apply repeat_spec in Hr; subst r.
    rewrite repeat_length; lia.
Qed.

Lemma base_mask_ok (size : F) (h w : Z) :
  to_int (size / of_Z 5)%num = Ok h ->
  to_int (of_Z 3 * size / of_Z 5)%num = Ok w ->
  (0 <= h)%Z -> (0 <= w)%Z ->
  exists m, base_mask size = Ok m /\ shape m = ((5 * h)%Z, w) /\ well_shaped m.
Proof.
  intros Hh Hw Ph Pw; unfold base_mask.
  destruct (@band_ok size (-1)%Z h w Hh Hw Ph Pw) as (b1 & E1 & S1 & W1).
  destruct (@band_ok size 0%Z h w Hh Hw Ph Pw) as (b2 & E2 & S2 & W2).
  destruct (@band_ok size 1%Z h w Hh Hw Ph Pw) as (b3 & E3 & S3 & W3).
  rewrite E1, E2, E3; cbn [bind].
  unfold concatenate.
  assert (C12 : exists a, concat2 b1 b2 = Ok a /\ shape a = ((h + h)%Z, w) /\ well_shaped a).
  { unfold concat2. rewrite S1, S2; simpl. rewrite Z.eqb_refl.
    eexists; split; [reflexivity|]. split; [reflexivity|].
    destruct W1 as [? ?], W2 as [? ?]; rewrite S1 in *; rewrite S2 in *; simpl in *.
    split; simpl; [rewrite length_app; lia | apply Forall_app; split; auto]. }
  destruct C12 as (a12 & E12 & S12 & W12). rewrite E12; cbn [bind].
  assert (step : forall (a b : ndarray F) k, shape a = (k, w) -> well_shaped a ->
             shape b = (h, w) -> well_shaped b ->
             exists c, concat2 a b = Ok c /\ shape c = ((k + h)%Z, w) /\ well_shaped c).
  { intros a b k Sa Wa Sb Wb. unfold concat2. rewrite Sa, Sb; simpl. rewrite Z.eqb_refl.
    eexists; split; [reflexivity|]. split; [reflexivity|].
    destruct Wa as [? ?], Wb as [? ?]; rewrite Sa in *; rewrite Sb in *; simpl in *.
    split; simpl; [rewrite length_app; lia | apply Forall_app; split; auto]. }
  destruct (step _ _ _ S12 W12 S3 W3) as (a3 & E123 & S123 & W123).
  rewrite E123; cbn [bind].
  destruct (step _ _ _ S123 W123 S2 W2) as (a4 & E4 & S4 & W4).
  rewrite E4; cbn [bind].
  destruct (step _ _ _ S4 W4 S1 W1) as (a5 & E5 & S5 & W5).
  rewrite E5; cbn [bind].
  eexists; split; [reflexivity|]. split.
  - unfold unscale, map_array; cbn [shape]. rewrite S5. f_equal; lia.
  - apply well_shaped_map_array. destruct W5 as [? ?]; split; auto.
Qed.
End MaskFacts.

Section MaskBank.
Context {F : Type} {A : Arith F}.
Import GraspMask.

Lemma mask_at_ok (mask_sizes : list F) (weights : list Z) (i : nat)
    (size : F) (wt h w : Z) :
  nth_error mask_sizes i = Some size ->
  nth_error weights i = Some wt ->
  to_int (size / of_Z 5)%num = Ok h ->
  to_int (of_Z 3 * size / of_Z 5)%num = Ok w ->
  (0 <= h)%Z -> (0 <= w)%Z ->
  exists mask, mask_at mask_sizes weights i = Ok mask /\
               shape mask = ((5 * h)%Z, w) /\ well_shaped mask.
Proof.
  intros Hs Hwt Hh Hw Ph Pw; unfold mask_at.
  rewrite (getitem_nth_error _ _ Hs); cbn [bind].
  destruct (@base_mask_ok _ _ size h w Hh Hw Ph Pw) as (m & E & S & W).
  rewrite E; cbn [bind]. rewrite (getitem_nth_error _ _ Hwt); cbn [bind].
  eexists; split; [reflexivity|]. split.
  - unfold scale, map_array; cbn [shape]; exact S.
  - now apply well_shaped_map_array.
Qed.


Lemma masks_from_Forall2 (mask_sizes : list F) (weights : list Z)
    (ss : list F) (bs : list (ndarray F)) :
  Forall2 (fun s b => base_mask s = Ok b) ss bs ->
  forall (i : nat) (ws : list Z),
    (forall k, k < length ss -> nth_error mask_sizes (i + k) = nth_error ss k) ->
    (forall k, nth_error weights (i + k) = nth_error ws k) ->
    masks_from mask_sizes weights i (length ss) =
    if (length ss <=? length ws)%nat then Ok (weighted bs ws) else Raise IndexError.
Proof.
  induction 1 as [|s b ss bs Hb Hrest IH]; intros i ws Hsz Hws.
  - reflexivity.
  - assert (Hs0 : nth_error mask_sizes i = Some s).
    { rewrite <- (Nat.add_0_r i). rewrite Hsz by (simpl; lia). reflexivity. }
    assert (Hw0 : nth_error weights i = nth_error ws 0).
    { rewrite <- (Nat.add_0_r i) at 1. apply Hws. }
    cbn [length masks_from]. unfold mask_at, getitem.
    rewrite Hs0, Hw0. cbn [bind]. rewrite Hb; cbn [bind].
    destruct ws as [|w ws]; [reflexivity|]. cbn [nth_error bind].
    rewrite (IH (S i) ws).
    + cbn [length]. change (S (length ss) <=? S (length ws))%nat
        with (length ss <=? length ws)%nat.
      destruct (length ss <=? length ws)%nat; reflexivity.
    + intros k Hk. replace (S i + k)%nat with (i + S k)%nat by lia.
      rewrite Hsz by (simpl; lia). reflexivity.
    + intros k. replace (S i + k)%nat with (i + S k)%nat by lia.
      now rewrite Hws.
Qed.

Lemma generate_masks_Forall2 (mask_sizes : list F) (weights : list Z)
    (bs : list (ndarray F)) :
  Forall2 (fun s b => base_mask s = Ok b) mask_sizes bs ->
  generate_masks mask_sizes weights =
  if (length mask_sizes <=? length weights)%nat
  then Ok (weighted bs weights) else Raise IndexError.
Proof.
  intros Hb; unfold generate_masks.
  now apply (masks_from_Forall2 mask_sizes weights Hb 0 weights).
Qed.
End MaskBank.


Import GraspMask.

Section Binary64Masks.
Local Existing Instance binary64.
Local Open Scope num_scope.

(** C5, counterexample.  The first configured size is [1024/4 = 256.0],
    with [int(256/5) = 51] and [int(3*256/5) = 153]; its mask has 255
    rows, not 51. *)
Lemma mask_shape_counterexample :
  exists (size : spec_float) mask,
    nth_error default_mask_sizes 0 = Some size /\
    to_int (size / of_Z 5) = Ok 51%Z /\
    to_int (of_Z 3 * size / of_Z 5) = Ok 153%Z /\
    mask_at default_mask_sizes default_weights 0 = Ok mask /\
    shape mask = (255%Z, 153%Z) /\
    shape mask <> (51%Z, 153%Z).
Proof.
  destruct (@mask_at_ok _ binary64 default_mask_sizes default_weights 0
              (of_Z 1024 / of_Z 4) 1%Z 51%Z 153%Z)
    as (mask & E & S & _).
  1-2: reflexivity.
  1-2: vm_compute; reflexivity.
  1-2: discriminate.
  exists (of_Z 1024 / of_Z 4), mask.
  split; [reflexivity|]. split; [vm_compute; reflexivity|].
  split; [vm_compute; reflexivity|]. split; [exact E|].
  split; [exact S|]. rewrite S; discriminate.
Qed.
End Binary64Masks.

(** C5 (as amended).  Each of the five bands of the mask of a size has
    shape [(int(size/5), int(3*size/5))]; the mask itself, the five bands
    stacked, has shape [(5 * int(size/5), int(3*size/5))], and its rows
    have that shape.  [int] is the floor on the non-negative sizes of the
    configuration ([Q_to_int_floor]). *)
Theorem mask_shape_five_bands (F : Type) (A : Arith F)
    (mask_sizes : list F) (weights : list Z) (i : nat) (size : F) (wt h w : Z) :
  nth_error mask_sizes i = Some size ->
  nth_error weights i = Some wt ->
  to_int (size / of_Z 5)%num = Ok h ->
  to_int (of_Z 3 * size / of_Z 5)%num = Ok w ->
  (0 <= h)%Z -> (0 <= w)%Z ->
  (forall v, exists b, band size v = Ok b /\ shape b = (h, w) /\ well_shaped b) /\
  (exists mask, mask_at mask_sizes weights i = Ok mask /\
                shape mask = ((5 * h)%Z, w) /\ well_shaped mask).
Proof.
  intros Hs Hwt Hh Hw Ph Pw; split.
  - intros v. exact (@band_ok _ _ size v h w Hh Hw Ph Pw).
  - exact (mask_at_ok _ _ _ Hs Hwt Hh Hw Ph Pw).
Qed.

Section Binary64MasksWitness.
Local Existing Instance binary64.
Local Open Scope num_scope.

(** C5, witness: the third configured size, [1024/12]. *)
Lemma mask_shape_five_bands_witness :
  (forall v, exists b, band (of_Z 1024 / of_Z 12) v = Ok b /\
                       shape b = (17%Z, 51%Z) /\ well_shaped b) /\
  (exists mask, mask_at default_mask_sizes default_weights 2 = Ok mask /\
                shape mask = (85%Z, 51%Z) /\ well_shaped mask).
Proof.
  apply (@mask_shape_five_bands _ binary64 default_mask_sizes default_weights 2
           (of_Z 1024 / of_Z 12) 3%Z 17%Z 51%Z).
  1-2: reflexivity.
  1-2: vm_compute; reflexivity.
  1-2: discriminate.
Defined.
End Binary64MasksWitness.

Section Binary64Bank.
Local Existing Instance binary64.
Local Open Scope num_scope.

(** The base masks of the four default sizes exist. *)
Lemma default_base_masks :
  exists b1 b2 b3 b4,
    Forall2 (fun s b => base_mask s = Ok b) default_mask_sizes [b1; b2; b3; b4].
Proof.
  destruct (@base_mask_ok _ binary64 (of_Z 1024 / of_Z 4) 51%Z 153%Z) as (b1 & E1 & _);
    [vm_compute; reflexivity | vm_compute; reflexivity | discriminate | discriminate |].
  destruct (@base_mask_ok _ binary64 (of_Z 1024 / of_Z 8) 25%Z 76%Z) as (b2 & E2 & _);
    [vm_compute; reflexivity | vm_compute; reflexivity | discriminate | discriminate |].
  destruct (@base_mask_ok _ binary64 (of_Z 1024 / of_Z 12) 17%Z 51%Z) as (b3 & E3 & _);
    [vm_compute; reflexivity | vm_compute; reflexivity | discriminate | discriminate |].
  destruct (@base_mask_ok _ binary64 (of_Z 1024 / of_Z 16) 12%Z 38%Z) as (b4 & E4 & _);
    [vm_compute; reflexivity | vm_compute; reflexivity | discriminate | discriminate |].
  exists b1, b2, b3, b4. unfold default_mask_sizes; cbn [map].
  repeat constructor; assumption.
Qed.

(** Four sizes and three weights: the fourth mask has no weight. *)
(** C6, counterexample.  With four sizes and three weights the shorter
    list is the weight list, and the construction does not truncate to it:
    it raises [IndexError] at the fourth size. *)
Lemma generate_masks_short_weights_counterexample :
  generate_masks default_mask_sizes [1; 2; 3]%Z = Raise IndexError.
Proof.
  destruct default_base_masks as (b1 & b2 & b3 & b4 & Hb).
  rewrite (generate_masks_Forall2 _ Hb). reflexivity.
Qed.
End Binary64Bank.

(** C6 (as amended).  The bank follows the size list: when the weight
    list is at least as long, there is one mask per size, the i-th base
    mask scaled by the i-th weight, and the weights beyond the sizes are
    ignored; when the weight list is shorter, [generate_masks] raises
    [IndexError].  With the configured sizes [[1024/4, 1024/8, 1024/12,
    1024/16]] and weights [[1, 2, 3, 4, 5]], in double precision, exactly
    four masks are produced, scaled by 1, 2, 3 and 4. *)
Theorem generate_masks_follows_sizes :
  (forall (F : Type) (A : Arith F) (mask_sizes : list F) (weights : list Z)
          (bs : list (ndarray F)),
      Forall2 (fun s b => base_mask s = Ok b) mask_sizes bs ->
      (length mask_sizes <= length weights ->
       generate_masks mask_sizes weights = Ok (weighted bs weights) /\
       length (weighted bs weights) = length mask_sizes) /\
      (length weights < length mask_sizes ->
       generate_masks mask_sizes weights = Raise IndexError)) /\
  (exists b1 b2 b3 b4 : ndarray spec_float,
      Forall2 (fun s b => @base_mask _ binary64 s = Ok b)
        (@default_mask_sizes _ binary64) [b1; b2; b3; b4] /\
      @generate_masks _ binary64 (@default_mask_sizes _ binary64) default_weights =
      Ok [@scale _ binary64 b1 (@of_Z _ binary64 1);
          @scale _ binary64 b2 (@of_Z _ binary64 2);
          @scale _ binary64 b3 (@of_Z _ binary64 3);
          @scale _ binary64 b4 (@of_Z _ binary64 4)]).
Proof.
  split.
  - intros F A mask_sizes weights bs Hb.
    rewrite (generate_masks_Forall2 weights Hb). split.
    + intros Hle. apply Nat.leb_le in Hle as Hle'. rewrite Hle'. split; [reflexivity|].
      unfold weighted. rewrite length_map, length_combine.
      apply Forall2_length in Hb. lia.
    + intros Hlt. apply Nat.leb_gt in Hlt. now rewrite Hlt.
  - destruct default_base_masks as (b1 & b2 & b3 & b4 & Hb).
    exists b1, b2, b3, b4. split; [exact Hb|].
    rewrite (generate_masks_Forall2 _ Hb). reflexivity.
Qed.

(** * Facts about the depth normalisation *)

Section NormalizeQ.
Import GraspMaskRun.
Local Open Scope Q_scope.













End NormalizeQ.

Section FloatFacts.
Variables prec emax : Z.

Lemma SFsub_diag (s : bool) (m : positive) (e : Z) :
  SFsub prec emax (S754_finite s m e) (S754_finite s m e) = S754_zero false.
Proof.
  unfold SFsub. rewrite Z.min_id. unfold shl_align.
  rewrite Z.sub_diag. cbn [fst]. reflexivity.
Qed.

(** [x - x] is a zero or a NaN. *)
Lemma SFsub_self (x : spec_float) :
  (exists s, SFsub prec emax x x = S754_zero s) \/ SFsub prec emax x x = S754_nan.
Proof.
  destruct x as [s|s| |s m e].
  - left. destruct s; eexists; reflexivity.
  - right. destruct s; reflexivity.
  - right. reflexivity.
  - left. eexists. apply SFsub_diag.
Qed.
End FloatFacts.

Section NormalizeFloat.
Import GraspMaskRun.

Lemma binary64_normalize_px_min (lo hi : spec_float) :
  @normalize_px _ binary64 lo hi lo = 0%Z.
Proof.
  unfold normalize_px, np_uint8.
  assert (E255 : @of_Z _ binary64 255 = S754_finite false 8972014882652160 (-45))
    by (vm_compute; reflexivity).
  rewrite E255.
  change (@sub _ binary64) with (SFsub 53 1024).
  change (@mul _ binary64) with (SFmul 53 1024).
  change (@div _ binary64) with (SFdiv 53 1024).
  change (@to_int _ binary64) with IEEE.f_to_int.
  destruct (SFsub_self 53 1024 lo) as [[s ->]| ->].
  - cbn [SFmul]. destruct (SFsub 53 1024 hi lo) as [s'|s'| |s' m' e']; reflexivity.
  - reflexivity.
Qed.

Lemma binary32_normalize_px_min (lo hi : spec_float) :
  @normalize_px _ binary32 lo hi lo = 0%Z.
Proof.
  unfold normalize_px, np_uint8.
  assert (E255 : @of_Z _ binary32 255 = S754_finite false 16711680 (-16))
    by (vm_compute; reflexivity).
  rewrite E255.
  change (@sub _ binary32) with (SFsub 24 128).
  change (@mul _ binary32) with (SFmul 24 128).
  change (@div _ binary32) with (SFdiv 24 128).
  change (@to_int _ binary32) with IEEE.f_to_int.
  destruct (SFsub_self 24 128 lo) as [[s ->]| ->].
  - cbn [SFmul]. destruct (SFsub 24 128 hi lo) as [s'|s'| |s' m' e']; reflexivity.
  - reflexivity.
Qed.


(** A single-precision frame holding 0.5 and 1.7 (as nearest floats). *)
Lemma normalize_depth_binary32_example :
  @normalize_depth _ binary32 [[@dec _ binary32 5 10; @dec _ binary32 17 10]]
    = Ok [[0%Z; 254%Z]].
Proof. vm_compute; reflexivity. Qed.
End NormalizeFloat.



(** * Facts about [sorted] and the ranking *)

Section SortedFacts.
Variables (A K : Type) (lt : K -> K -> bool) (key : A -> K).

Lemma insert_sorted_perm (reverse : bool) (x : A) (l : list A) :
  Permutation (x :: l) (insert_sorted lt key reverse x l).
Proof.
  induction l as [|y l IH]; cbn [insert_sorted]; [reflexivity|].
  destruct (goes_before lt key reverse x y); [reflexivity|].
  rewrite perm_swap. now constructor.
Qed.

Lemma sorted_perm (reverse : bool) (l : list A) :
  Permutation l (sorted lt key reverse l).
Proof.
  induction l as [|x l IH]; cbn [sorted]; [reflexivity|].
  rewrite <- insert_sorted_perm. now constructor.
Qed.

(** An element that does not go before [y] is not selected by a
    predicate [p] that selects [y], as soon as [p] only selects elements
    that go before one another. *)
Lemma insert_sorted_filter (reverse : bool) (p : A -> bool) (x : A) (l : list A) :
  (forall a b, p a = true -> p b = true -> goes_before lt key reverse a b = true) ->
  filter p (insert_sorted lt key reverse x l) = filter p (x :: l).
Proof.
  intros Hp. induction l as [|y l IH]; cbn [insert_sorted]; [reflexivity|].
  destruct (goes_before lt key reverse x y) eqn:E; [reflexivity|].
  cbn [filter] in *. rewrite IH.
  destruct (p x) eqn:Px, (p y) eqn:Py; try reflexivity.
  rewrite (Hp x y Px Py) in E. discriminate.
Qed.

Lemma sorted_filter (reverse : bool) (p : A -> bool) (l : list A) :
  (forall a b, p a = true -> p b = true -> goes_before lt key reverse a b = true) ->
  filter p (sorted lt key reverse l) = filter p l.
Proof.
  intros Hp. induction l as [|x l IH]; cbn [sorted]; [reflexivity|].
  rewrite insert_sorted_filter by exact Hp. cbn [filter]. now rewrite IH.
Qed.
End SortedFacts.

Section Ranking.
Import GraspMaskRun.
Variable F : Type.


Lemma insert_ranked (x : grasp F) (l : list (grasp F)) :
  StronglySorted (@outranks F) l ->
  StronglySorted (@outranks F) (insert_sorted Z.ltb (@g_score F) true x l).
Proof.
  induction 1 as [|y l Hl IH Hy]; cbn [insert_sorted].
  - repeat constructor.
  - unfold goes_before. destruct (Z.ltb_spec (g_score x) (g_score y)) as [Hlt|Hge]; cbn [negb].
    + constructor; [exact IH|].
      apply Forall_forall. intros z Hz.
      apply (Permutation_in _ (Permutation_sym (insert_sorted_perm Z.ltb (@g_score F) true x l))) in Hz.
      destruct Hz as [<-|Hz]; [unfold outranks; lia|].
      rewrite Forall_forall in Hy. now apply Hy.
    + constructor; [now constructor|].
      constructor; [exact Hge|].
      eapply Forall_impl; [|exact Hy]. unfold outranks; intros; lia.
Qed.

Lemma rank_sorted (l : list (grasp F)) : StronglySorted (@outranks F) (rank l).
Proof.
  unfold rank. induction l as [|x l IH]; cbn [sorted]; [constructor|].
  now apply insert_ranked.
Qed.

Lemma rank_stable (l : list (grasp F)) (s : Z) :
  filter (fun g => (g_score g =? s)%Z) (rank l) =
  filter (fun g => (g_score g =? s)%Z) l.
Proof.
  apply sorted_filter. intros a b Ha Hb.
  apply Z.eqb_eq in Ha, Hb. unfold goes_before.
  rewrite Ha, Hb, Z.ltb_irrefl. reflexivity.
Qed.
End Ranking.

(** C9.  The ranked list is sorted by non-increasing score, is a
    permutation of the candidates, and keeps candidates of equal score in
    the order in which they were generated. *)
Theorem rank_sorted_and_stable (F : Type) (best_grasps : list (GraspMaskRun.grasp F)) :
  StronglySorted (fun a b => (GraspMaskRun.g_score b <= GraspMaskRun.g_score a)%Z)
    (GraspMaskRun.rank best_grasps) /\
  Permutation best_grasps (GraspMaskRun.rank best_grasps) /\
  forall s : Z,
    filter (fun g => (GraspMaskRun.g_score g =? s)%Z) (GraspMaskRun.rank best_grasps) =
    filter (fun g => (GraspMaskRun.g_score g =? s)%Z) best_grasps.
Proof.
  split; [exact (rank_sorted best_grasps)|].
  split; [apply sorted_perm|]. intros s. apply rank_stable.
Qed.

(** * The angle list across calls *)

Section AngleList.
Import GraspMaskRun.
Context {F : Type} {A : Arith F}.
Variable Contour : Type.
Variable get_largest_contour : list (list Z) -> result Contour.
Variable get_major_directions : Contour -> list (list Z) -> (F * F) * F.
Variable getRotationMatrix2D : F * F -> F -> affine F.
Variable warpAffine : list (list Z) -> affine F -> list (list Z).
Variable filter2D : list (list Z) -> ndarray F -> list (list Z).
Variable pi : F.

Let run := get_grasp get_largest_contour get_major_directions
             getRotationMatrix2D warpAffine filter2D pi.
Let look := analyse get_largest_contour get_major_directions.

Lemma get_grasp_angles (self : GraspMask F) (depth_image : list (list F))
    (img : list (list Z)) (contour_mean : F * F) (major_component_angle : F) :
  look depth_image = Ok (img, contour_mean, major_component_angle) ->
  angles (fst (run self depth_image)) =
  match grasp_mode self with
  | ALL_ROTATIONS => angles self ++ [major_component_angle]
  | MAJOR_COMPONENT_IMAGE => [major_component_angle]
  | MAJOR_COMPONENT_MASK => [of_Z 0]
  end.
Proof.
  unfold run, look, get_grasp. intros ->. reflexivity.
Qed.

Lemma get_grasp_keeps_mode (self : GraspMask F) (depth_image : list (list F)) :
  grasp_mode (fst (run self depth_image)) = grasp_mode self.
Proof.
  unfold run, get_grasp.
  destruct (analyse _ _ _) as [e|[[img cm] ang]]; reflexivity.
Qed.
End AngleList.

(** C2, evaluation of the code.  In [ALL_ROTATIONS] mode, the mode a
    [GraspMask] object is built in, a call of [get_grasp] whose analysis of
    the frame succeeds leaves the angle list one element longer: the major
    component angle of the frame is appended to it.  The list after the
    call differs from the list before the call. *)
Theorem get_grasp_appends_angle (F : Type) (A : Arith F) (Contour : Type)
    (get_largest_contour : list (list Z) -> result Contour)
    (get_major_directions : Contour -> list (list Z) -> (F * F) * F)
    (getRotationMatrix2D : F * F -> F -> GraspMaskRun.affine F)
    (warpAffine : list (list Z) -> GraspMaskRun.affine F -> list (list Z))
    (filter2D : list (list Z) -> ndarray F -> list (list Z)) (pi : F)
    (self : GraspMaskRun.GraspMask F) (depth_image : list (list F))
    (img : list (list Z)) (contour_mean : F * F) (major_component_angle : F) :
  GraspMaskRun.grasp_mode self = GraspMaskRun.ALL_ROTATIONS ->
  GraspMaskRun.analyse get_largest_contour get_major_directions depth_image
    = Ok (img, contour_mean, major_component_angle) ->
  let self' := fst (GraspMaskRun.get_grasp get_largest_contour get_major_directions
                      getRotationMatrix2D warpAffine filter2D pi self depth_image) in
  GraspMaskRun.angles self' = GraspMaskRun.angles self ++ [major_component_angle] /\
  length (GraspMaskRun.angles self') = S (length (GraspMaskRun.angles self)) /\
  GraspMaskRun.angles self' <> GraspMaskRun.angles self.
Proof.
  intros Hmode Hlook self'.
  assert (E : GraspMaskRun.angles self'
              = GraspMaskRun.angles self ++ [major_component_angle]).
  { unfold self'. rewrite (get_grasp_angles _ _ getRotationMatrix2D warpAffine filter2D pi self _ Hlook).
    now rewrite Hmode. }
  assert (L : length (GraspMaskRun.angles self') = S (length (GraspMaskRun.angles self))).
  { rewrite E, length_app. simpl. lia. }
  repeat split; auto. intros Heq. rewrite Heq in L. lia.
Qed.

(** C2, witness: a frame [[0, 1/7]] over the rationals, with stand-ins
    for the OpenCV routines. *)
Lemma get_grasp_appends_angle_witness :
  let self' :=
    fst (GraspMaskRun.get_grasp (fun _ => Ok tt) (fun _ _ => ((0, 0), 30)%Q)
           (fun c _ => Rotation.rotation_matrix 1%Q 0%Q c)
           (fun img _ => img) (fun img _ => img) (355 # 113)%Q
           Inputs.small_self [[0; 1 # 7]]%Q) in
  GraspMaskRun.angles self' = GraspMaskRun.angles Inputs.small_self ++ [30%Q] /\
  length (GraspMaskRun.angles self') = S (length (GraspMaskRun.angles Inputs.small_self)) /\
  GraspMaskRun.angles self' <> GraspMaskRun.angles Inputs.small_self.
Proof.
  apply (@get_grasp_appends_angle Q Q_Arith unit (fun _ => Ok tt)
           (fun _ _ => ((0, 0), 30)%Q)
           (fun c _ => Rotation.rotation_matrix 1%Q 0%Q c)
           (fun img _ => img) (fun img _ => img) (355 # 113)%Q
           Inputs.small_self [[0; 1 # 7]]%Q [[255; 0]]%Z (0, 0)%Q 30%Q);
    reflexivity.
Defined.

(** * The rotation and its inverse *)

Section RotationFacts.
Import GraspMaskRun Rotation.
Local Open Scope R_scope.


End RotationFacts.


Section RotationFloat.
Import GraspMaskRun Rotation.
Local Existing Instance binary64.
Local Open Scope num_scope.

End RotationFloat.

(** * Facts about the pair filter *)

Lemma Rltb_true (x y : R) : Rltb x y = true <-> (x < y)%R.
Proof. unfold Rltb. destruct (Rlt_dec x y); split; intros; auto; discriminate. Qed.

Lemma Rltb_false (x y : R) : Rltb x y = false <-> (y <= x)%R.
Proof.
  unfold Rltb. destruct (Rlt_dec x y); split; intros; auto; try discriminate; lra.
Qed.

Section SortedReal.
Variable A : Type.
Variable key : A -> R.





End SortedReal.

Section PairFilterReal.
Import Pyefd.
Local Open Scope R_scope.

Lemma norm_vsub (p q : R * R) : norm (vsub p q) = euclid p q.
Proof. reflexivity. Qed.

Lemma centred_distance (p q m : R * R) :
  norm (vsub (vsub p m) (vsub q m)) = euclid p q.
Proof.
  unfold norm, dot, vsub, euclid, sqrt_of, R_Sqrt; cbn [fst snd add sub mul R_Arith].
  f_equal. ring.
Qed.

Lemma qualifies_fun (c : curve R) (i j : nat) (s s' : R) :
  qualifies c i j s -> qualifies c i j s' -> s = s'.
Proof.
  intros (n1 & n2 & x1 & y1 & x2 & y2 & A1 & A2 & A3 & A4 & A5 & A6 & _ & _ & ->)
         (m1 & m2 & u1 & v1 & u2 & v2 & B1 & B2 & B3 & B4 & B5 & B6 & _ & _ & ->).
  congruence.
Qed.

Lemma examine_spec (c : curve R) (i j : nat) (l : list (scored_pair R)) :
  examine acos c (i, j) = Ok l ->
  (l = [] /\ forall s, ~ qualifies c i j s) \/
  (exists s, l = [((i, j), s)] /\ qualifies c i j s).
Proof.
  unfold examine, getitem.
  destruct (nth_error (c_outward_normals c) i) as [n1|] eqn:N1; [|discriminate].
  destruct (nth_error (c_outward_normals c) j) as [n2|] eqn:N2; [|discriminate].
  cbn [bind].
  change (@ltb R R_Arith) with Rltb. change (@of_Z R R_Arith 120) with 120.
  destruct (Rltb 120 (angle_between acos n1 n2)) eqn:Ha.
  - destruct (nth_error (c_xt c) i) as [x1|] eqn:X1; [|discriminate].
    destruct (nth_error (c_yt c) i) as [y1|] eqn:Y1; [|discriminate].
    destruct (nth_error (c_xt c) j) as [x2|] eqn:X2; [|discriminate].
    destruct (nth_error (c_yt c) j) as [y2|] eqn:Y2; [|discriminate].
    cbn [bind]. rewrite centred_distance, !norm_vsub.
    change (@dec R R_Arith 8 100) with (8 / 100).
    apply Rltb_true in Ha.
    destruct (Rltb (euclid (x1, y1) (x2, y2)) (8 / 100)) eqn:Hd; intros [= <-].
    + right. eexists; split; [reflexivity|].
      apply Rltb_true in Hd.
      exists n1, n2, x1, y1, x2, y2. repeat split; auto.
    + left. split; [reflexivity|].
      apply Rltb_false in Hd.
      intros s (m1 & m2 & u1 & v1 & u2 & v2 & B1 & B2 & B3 & B4 & B5 & B6 & _ & Hlt & _).
      assert (u1 = x1) by congruence. assert (v1 = y1) by congruence.
      assert (u2 = x2) by congruence. assert (v2 = y2) by congruence.
      subst. lra.
  - intros [= <-]. left. split; [reflexivity|].
    apply Rltb_false in Ha.
    intros s (m1 & m2 & u1 & v1 & u2 & v2 & B1 & B2 & _ & _ & _ & _ & Hlt & _).
    assert (m1 = n1) by congruence. assert (m2 = n2) by congruence.
    subst. lra.
Qed.

Lemma collect_spec (c : curve R) (combinations_list : list (nat * nat)) :
  forall grasps, collect acos c combinations_list = Ok grasps ->
  (forall g, In g grasps ->
     In (fst g) combinations_list /\ qualifies c (fst (fst g)) (snd (fst g)) (snd g)) /\
  (forall i j s, In (i, j) combinations_list -> qualifies c i j s ->
     In ((i, j), s) grasps).
Proof.
  induction combinations_list as [|[i j] rest IH]; cbn [collect]; intros grasps.
  - intros [= <-]. split; [intros g []|intros i j s []].
  - destruct (examine acos c (i, j)) as [e|here] eqn:E; [discriminate|].
    cbn [bind]. destruct (collect acos c rest) as [e|more]; [discriminate|].
    cbn [bind]. intros [= <-]. destruct (IH more eq_refl) as [IH1 IH2].
    apply examine_spec in E. split.
    + intros g Hg. apply in_app_or in Hg. destruct Hg as [Hg|Hg].
      * destruct E as [[-> _]|(s & -> & Hq)]; [destruct Hg|].
        destruct Hg as [<-|[]]. split; [now left | exact Hq].
      * destruct (IH1 g Hg). split; [now right | assumption].
    + intros i' j' s' [[= <- <-]|Hin] Hq.
      * apply in_or_app. left.
        destruct E as [[_ Hn]|(s & -> & Hq')]; [now destruct (Hn s')|].
        rewrite (qualifies_fun Hq Hq'). now left.
      * apply in_or_app. right. now apply IH2.
Qed.
End PairFilterReal.



(** C3 (as amended).  When no pair of candidates passes both tests of
    the code, the candidate set being empty or not, the pair filter
    raises [IndexError]. *)
Theorem best_pair_fails_without_qualifying_pair (c : Pyefd.curve R) :
  (forall i j s, In (i, j) (Pyefd.c_combinations_list c) -> ~ Pyefd.qualifies c i j s) ->
  Pyefd.best_pair acos c = Raise IndexError.
Proof.
  intros Hnone. unfold Pyefd.best_pair.
  destruct (Pyefd.collect acos c (Pyefd.c_combinations_list c)) as [e|grasps] eqn:Ec.
  - (* a lookup of the loop failed: the only exception a lookup raises *)
    assert (He : forall l r, Pyefd.collect acos c l = Raise r -> r = IndexError).
    { induction l as [|[i j] rest IH]; cbn [Pyefd.collect]; intros r; [discriminate|].
      destruct (Pyefd.examine acos c (i, j)) as [e'|here] eqn:E.
      - cbn [bind]. intros [= <-]. revert E. unfold Pyefd.examine, getitem.
        repeat match goal with
               | |- context [nth_error ?l ?k] => destruct (nth_error l k); cbn [bind]
               | |- context [if ?b then _ else _] => destruct b
               end; congruence.
      - cbn [bind]. destruct (Pyefd.collect acos c rest) as [e'|more]; cbn [bind];
          [intros [= <-]; now apply IH | discriminate]. }
    rewrite (He _ _ Ec). reflexivity.
  - cbn [bind]. destruct (collect_spec _ _ Ec) as [Hsound _].
    destruct grasps as [|g grasps]; [reflexivity|].
    destruct (Hsound g (or_introl eq_refl)) as [Hin Hq].
    destruct g as [[i j] s]. now destruct (Hnone i j s Hin).
Qed.

Lemma wide_pair_distance : Pyefd.euclid (0, 0)%R (1, 0)%R = 1%R.
Proof.
  unfold Pyefd.euclid; cbn [fst snd].
  replace ((0 - 1) * (0 - 1) + (0 - 0) * (0 - 0))%R with (1 * 1)%R by ring.
  apply sqrt_square; lra.
Qed.

(** C3, witness: two candidates one unit apart. *)
Lemma best_pair_fails_without_qualifying_pair_witness :
  Pyefd.best_pair acos Inputs.wide_pair = Raise IndexError.
Proof.
  apply (@best_pair_fails_without_qualifying_pair Inputs.wide_pair).
  intros i j s [[= <- <-]|[]]
    (n1 & n2 & x1 & y1 & x2 & y2 & _ & _ & X1 & Y1 & X2 & Y2 & _ & Hd & _).
  cbn in X1, Y1, X2, Y2.
  injection X1 as <-. injection Y1 as <-. injection X2 as <-. injection Y2 as <-.
  rewrite wide_pair_distance in Hd. lra.
Defined.

(** C3, counterexample.  With no candidate the pair filter raises
    [IndexError], not [NoGraspFoundError]. *)
Lemma best_pair_no_candidates_counterexample :
  Pyefd.best_pair acos Inputs.no_candidates = Raise IndexError /\
  Pyefd.best_pair acos Inputs.no_candidates <> Raise NoGraspFoundError.
Proof. split; [reflexivity | discriminate]. Qed.

(** * A pair the code accepts below 120 degrees *)

Section Trigonometry.
Local Open Scope R_scope.

Lemma PI_bounds : 31415 / 10000 < PI < 315 / 100.
Proof.
  pose proof (PI_2_3_7_ineq 1) as [Hlo Hhi].
  unfold sum_f_R0, tg_alt, PI_2_3_7_tg, Ratan_seq in Hlo, Hhi.
  simpl in Hlo, Hhi. split; lra.
Qed.

Lemma acos_gt (x y : R) :
  -1 <= x <= 1 -> 0 <= y <= PI -> x < cos y -> y < acos x.
Proof.
  intros Hx Hy Hlt. destruct (Rlt_dec y (acos x)) as [|Hn]; [assumption|].
  exfalso. apply Rnot_lt_le in Hn.
  pose proof (acos_bound x) as Hb.
  pose proof (cos_decr_1 (acos x) y) as Hd.
  rewrite cos_acos in Hd by lra. lra.
Qed.

Lemma acos_lt (x y : R) :
  -1 <= x <= 1 -> 0 <= y <= PI -> cos y < x -> acos x < y.
Proof.
  intros Hx Hy Hlt. destruct (Rlt_dec (acos x) y) as [|Hn]; [assumption|].
  exfalso. apply Rnot_lt_le in Hn.
  pose proof (acos_bound x) as Hb.
  pose proof (cos_decr_1 y (acos x)) as Hd.
  rewrite cos_acos in Hd by lra. lra.
Qed.

Lemma sqrt3_lower : 17 / 10 < sqrt 3.
Proof.
  replace (17 / 10) with (sqrt ((17 / 10) * (17 / 10))) by (apply sqrt_square; lra).
  apply sqrt_lt_1; lra.
Qed.

Lemma sin_lower (d : R) : 0 <= d <= 1 / 100 -> d * (9 / 10) <= sin d.
Proof.
  intros Hd. destruct (pre_sin_bound d 0) as [Hlo _]; [lra | lra |].
  unfold sin_approx, sin_term, sum_f_R0 in Hlo. simpl in Hlo.
  assert (Hd2 : d * d <= 1 / 10000) by nra.
  assert (Hd3 : d * (d * d) <= d * (1 / 10000)) by (apply Rmult_le_compat_l; lra).
  lra.
Qed.

(** [157/75] radians is what the code takes for 120 degrees:
    [120 * 3.14 / 180]. *)
Lemma cos_157_75 : - (2698 / 5402) < cos (157 / 75).
Proof.
  pose proof PI_bounds as [Hlo Hhi].
  set (d := 2 * (PI / 3) - 157 / 75).
  assert (Hd : 9 / 10000 <= d <= 1 / 100) by (unfold d; lra).
  replace (157 / 75) with (2 * (PI / 3) - d) by (unfold d; ring).
  rewrite cos_minus, cos_2PI3, sin_2PI3.
  pose proof (COS_bound d) as [_ Hc].
  assert (Hs : d * (9 / 10) <= sin d) by (apply sin_lower; lra).
  pose proof sqrt3_lower as H3.
  assert (Hs' : 8 / 10000 <= sin d) by lra.
  assert (Hprod : 17 / 10 / 2 * (8 / 10000) <= sqrt 3 / 2 * sin d).
  { apply Rmult_le_compat; lra. }
  lra.
Qed.
End Trigonometry.

Section FailingPair.
Import Pyefd Inputs.
Local Open Scope R_scope.


Lemma narrow_pair_arg :
  arccos_arg (1, 0) (- (2698 / 5402), 4680 / 5402) = - (2698 / 5402).
Proof.
  unfold arccos_arg, norm, dot, sqrt_of, R_Sqrt; cbn [fst snd add mul div R_Arith].
  replace (1 * 1 + 0 * 0) with 1 by ring.
  replace (- (2698 / 5402) * - (2698 / 5402) + 4680 / 5402 * (4680 / 5402)) with 1 by field.
  rewrite sqrt_1. field.
Qed.

Lemma narrow_pair_code_angle :
  120 < angle_between acos (1, 0) (- (2698 / 5402), 4680 / 5402).
Proof.
  unfold angle_between. rewrite narrow_pair_arg.
  change (@of_Z R R_Arith 180) with 180.
  change (@dec R R_Arith 314 100) with (314 / 100).
  cbn [mul div R_Arith].
  pose proof PI_bounds as [Hlo Hhi].
  assert (H : 157 / 75 < acos (- (2698 / 5402))).
  { apply acos_gt; [lra | lra | apply cos_157_75]. }
  lra.
Qed.

Lemma narrow_pair_true_angle :
  acos (arccos_arg (1, 0) (- (2698 / 5402), 4680 / 5402)) * 180 / PI < 120.
Proof.
  rewrite narrow_pair_arg. pose proof PI_bounds as [Hlo Hhi].
  assert (H : acos (- (2698 / 5402)) < 2 * (PI / 3)).
  { apply acos_lt; [lra | lra | rewrite cos_2PI3; lra]. }
  apply Rmult_lt_reg_r with (r := PI); [lra|].
  unfold Rdiv. rewrite Rmult_assoc, Rinv_l by lra. lra.
Qed.

Lemma narrow_pair_distance : euclid (0, 0) (1 / 100, 0) = 1 / 100.
Proof.
  unfold euclid; cbn [fst snd].
  replace ((0 - 1 / 100) * (0 - 1 / 100) + (0 - 0) * (0 - 0))
    with ((1 / 100) * (1 / 100)) by ring.
  apply sqrt_square; lra.
Qed.

Lemma narrow_pair_returned :
  best_pair acos narrow_pair = Ok ((0, 0), (1 / 100, 0)).
Proof.
  unfold best_pair, narrow_pair; cbn [c_combinations_list collect].
  unfold examine, getitem;
    cbn [c_outward_normals c_xt c_yt nth_error bind].
  change (@ltb R R_Arith) with Rltb. change (@of_Z R R_Arith 120) with 120.
  change (@dec R R_Arith 8 100) with (8 / 100).
  pose proof narrow_pair_code_angle as Ha. apply Rltb_true in Ha. rewrite Ha.
  cbn [bind]. rewrite centred_distance, narrow_pair_distance.
  assert (Hd : Rltb (1 / 100) (8 / 100) = true) by (apply Rltb_true; lra).
  rewrite Hd. reflexivity.
Qed.
End FailingPair.


(** C1, evaluation of the code.  The pair filter returns the two samples
    of [narrow_pair]: their distance is 0.01, and the angle between their
    outward normals is less than 120 degrees, yet the code's measure of
    it, [acos(...) * 180 / 3.14], is more than 120. *)
Theorem best_pair_accepts_below_120_degrees :
  Pyefd.best_pair acos Inputs.narrow_pair = Ok ((0, 0), (1 / 100, 0))%R /\
  (acos (Pyefd.arccos_arg (1, 0) (- (2698 / 5402), 4680 / 5402)) * 180 / PI < 120)%R /\
  (120 < Pyefd.angle_between acos (1, 0) (- (2698 / 5402), 4680 / 5402))%R /\
  (Pyefd.euclid (0, 0) (1 / 100, 0) < 8 / 100)%R.
Proof.
  split; [exact narrow_pair_returned|].
  split; [exact narrow_pair_true_angle|].
  split; [exact narrow_pair_code_angle|].
  rewrite narrow_pair_distance. lra.
Qed.

(** * Segmentation and the inverse cosine in double precision *)

Section Binary64Pyefd.
Import Pyefd Inputs.
Local Existing Instance binary64.
Local Existing Instance binary64_Sqrt.
Local Open Scope num_scope.

(** C10, evaluation of the code.  On three points 0.05 and then 0.01
    apart, the only distance above 0.03 is the first one.  The code's
    pieces are [[p0]] and [[p0, p1, p2]]: the second starts at the split
    index, not after it, so the kept sequence is the whole input, with the
    gap inside it.  Cutting at the gap gives [[p0]] and [[p1, p2]], and
    keeps [[p1, p2]]. *)
Lemma preprocess_keeps_the_gap :
  let p0 := (of_Z 0, of_Z 0) in
  let p1 := (dec 5 100, of_Z 0) in
  let p2 := (dec 6 100, of_Z 0) in
  where_gt 0 (distances gapped_contour) = [0%nat] /\
  subarrays gapped_contour = [[p0]; [p0; p1; p2]] /\
  preprocess gapped_contour
    = Ok [p0; midpoint p0 p1; p1; midpoint p1 p2; p2] /\
  split_at_gaps gapped_contour = [[p0]; [p1; p2]] /\
  preprocess_as_specified gapped_contour = Ok [p1; midpoint p1 p2; p2].
Proof. vm_compute. repeat split. Qed.



End Binary64Pyefd.



(** * The segmentation and the densification of [get_grasp] *)

Section SliceFacts.
Variable A : Type.

Lemma slice_extend (w : list A) (lo k : nat) (p : A) :
  lo <= k -> nth_error w k = Some p ->
  Pyefd.slice w lo (k + 1) = Pyefd.slice w lo k ++ [p].
Proof.
  unfold Pyefd.slice. intros Hle Hk.
  assert (Hk' : nth_error (skipn lo w) (k - lo) = Some p).
  { rewrite nth_error_skipn. replace (lo + (k - lo)) with k by lia. exact Hk. }
  replace (k + 1 - lo) with (S (k - lo)) by lia.
  generalize dependent (skipn lo w). generalize (k - lo). clear.
  induction n as [|n IH]; intros l Hn; destruct l as [|x l]; try discriminate.
  - cbn in Hn. injection Hn as ->. reflexivity.
  - cbn in Hn. rewrite (firstn_cons (S n)), (firstn_cons n), (IH l Hn). reflexivity.
Qed.

Lemma slice_empty (w : list A) (lo : nat) : Pyefd.slice w lo lo = [].
Proof. unfold Pyefd.slice. now rewrite Nat.sub_diag. Qed.

Lemma slice_single (w : list A) (k : nat) (p : A) :
  nth_error w k = Some p -> Pyefd.slice w k (k + 1) = [p].
Proof.
  intros Hk. rewrite (@slice_extend w k k p (Nat.le_refl k) Hk), slice_empty. reflexivity.
Qed.
End SliceFacts.

Section PiecesFacts.
Context {F : Type} {A : Arith F} {S' : Sqrt F}.
Import Pyefd.

(** The distances of a contour, read with [gap]. *)
Lemma where_gt_cons (i : nat) (p q : point F) (t : list (point F)) :
  where_gt i (distances (p :: q :: t)) =
  if gap p q then i :: where_gt (S i) (distances (q :: t))
  else where_gt (S i) (distances (q :: t)).
Proof. reflexivity. Qed.

Lemma slices_cons2 (a : list (point F)) (lo hi : nat) (r : list nat) :
  slices a (lo :: hi :: r) = slice a lo (hi + 1) :: slices a (hi :: r).
Proof. reflexivity. Qed.

Lemma slices_pieces (w : list (point F)) :
  forall (a : list (point F)) (lo k : nat),
    lo <= k -> a <> [] ->
    (forall j, nth_error a j = nth_error w (k + j)) ->
    length w = k + length a ->
    slices w (lo :: where_gt k (distances a) ++ [length w - 1]) =
    pieces_from (slice w lo k) a.
Proof.
  induction a as [|p t IH]; intros lo k Hle Hne Hnth Hlen; [congruence|].
  assert (Hp : nth_error w k = Some p).
  { rewrite <- (Nat.add_0_r k), <- Hnth. reflexivity. }
  destruct t as [|q t].
  - cbn [distances np_diff map where_gt app slices pieces_from].
    cbn [length] in Hlen.
    replace (length w - 1 + 1) with (k + 1) by lia.
    replace (length w - 1) with k by lia.
    now rewrite (@slice_extend _ w lo k p Hle Hp).
  - rewrite where_gt_cons. cbn [pieces_from].
    assert (Hnth' : forall j, nth_error (q :: t) j = nth_error w (S k + j)).
    { intros j. replace (S k + j) with (k + S j) by lia. rewrite <- Hnth. reflexivity. }
    assert (Hlen' : length w = S k + length (q :: t)) by (cbn [length] in *; lia).
    destruct (gap p q).
    + rewrite <- app_comm_cons, slices_cons2.
      rewrite (IH k (S k)); [| lia | discriminate | exact Hnth' | exact Hlen'].
      rewrite (@slice_extend _ w lo k p Hle Hp).
      replace (S k) with (k + 1) by lia. rewrite (@slice_single _ w k p Hp).
      reflexivity.
    + rewrite (IH lo (S k)); [| lia | discriminate | exact Hnth' | exact Hlen'].
      replace (S k) with (k + 1) by lia.
      now rewrite (@slice_extend _ w lo k p Hle Hp).
Qed.
End PiecesFacts.

Section PiecesTheorems.
Context {F : Type} {A : Arith F} {S' : Sqrt F}.
Import Pyefd.

Lemma subarrays_pieces (a : list (point F)) : subarrays a = pieces_from [] a.
Proof.
  destruct a as [|p t]; [reflexivity|].
  assert (E : slices (p :: t)
                (0 :: where_gt 0 (distances (p :: t)) ++ [length (p :: t) - 1])
              = pieces_from [] (p :: t)).
  { rewrite <- (slice_empty (p :: t) 0).
    apply slices_pieces; [lia | discriminate | reflexivity | reflexivity]. }
  unfold subarrays.
  destruct (where_gt 0 (distances (p :: t))) as [|i s] eqn:Es; [|exact E].
  rewrite <- E. cbn [app slices]. unfold slice.
  replace (length (p :: t) - 1 + 1 - 0) with (length (p :: t)) by (cbn [length]; lia).
  cbn [skipn]. now rewrite firstn_all.
Qed.

Lemma pieces_from_cons2 (cur : list (point F)) (p q : point F) (t : list (point F)) :
  pieces_from cur (p :: q :: t) =
  if gap p q then (cur ++ [p]) :: pieces_from [p] (q :: t)
  else pieces_from (cur ++ [p]) (q :: t).
Proof. reflexivity. Qed.

(** The first piece extends what was being built. *)
Lemma pieces_from_head (a : list (point F)) :
  forall cur, exists x rest, pieces_from cur a = (cur ++ x) :: rest /\
                             (a <> [] -> exists p y, x = p :: y /\ hd_error a = Some p).
Proof.
  induction a as [|p t IH]; intros cur.
  - exists [], []. cbn. rewrite app_nil_r. split; [reflexivity | congruence].
  - destruct t as [|q t].
    + exists [p], []. split; [reflexivity|]. intros _. now exists p, [].
    + rewrite pieces_from_cons2. destruct (gap p q).
      * exists [p], (pieces_from [p] (q :: t)). split; [reflexivity|].
        intros _. now exists p, [].
      * destruct (IH (cur ++ [p])) as (x & rest & E & _).
        exists (p :: x), rest. rewrite E, <- app_assoc. split; [reflexivity|].
        intros _. now exists p, x.
Qed.

Lemma pieces_from_later (a : list (point F)) :
  forall cur piece, In piece (tl (pieces_from cur a)) ->
    exists p q r, piece = p :: q :: r /\ gap p q = true.
Proof.
  induction a as [|p t IH]; intros cur piece Hin; [destruct Hin|].
  destruct t as [|q t]; [destruct Hin|].
  rewrite pieces_from_cons2 in Hin. destruct (gap p q) eqn:G.
  - cbn [tl] in Hin.
    destruct (pieces_from_head (q :: t) [p]) as (x & rest & E & Hx).
    destruct (Hx ltac:(discriminate)) as (q' & y & -> & Hq). injection Hq as <-.
    rewrite E in Hin. destruct Hin as [<- | Hin].
    + now exists p, q, y.
    + apply (IH [p]). rewrite E. exact Hin.
  - apply (IH (cur ++ [p])). exact Hin.
Qed.

Lemma pieces_from_cover (a : list (point F)) :
  forall cur,
    concat (hd [] (pieces_from cur a) :: map (@tl _) (tl (pieces_from cur a))) = cur ++ a.
Proof.
  induction a as [|p t IH]; intros cur.
  - cbn. now rewrite !app_nil_r.
  - destruct t as [|q t].
    + cbn. now rewrite app_nil_r.
    + rewrite pieces_from_cons2. destruct (gap p q).
      * specialize (IH [p]).
        destruct (pieces_from_head (q :: t) [p]) as (x & rest & E & _).
        rewrite E in *. cbn [hd tl map concat app] in *.
        injection IH as IH. rewrite IH, <- app_assoc. reflexivity.
      * rewrite IH, <- app_assoc. reflexivity.
Qed.

Lemma pieces_from_nonempty (a : list (point F)) :
  forall cur, cur <> [] \/ a <> [] -> Forall (fun x => x <> []) (pieces_from cur a).
Proof.
  induction a as [|p t IH]; intros cur Hne.
  - constructor; [|constructor]. destruct Hne; congruence.
  - destruct t as [|q t].
    + constructor; [|constructor]. now destruct cur.
    + rewrite pieces_from_cons2. destruct (gap p q).
      * constructor; [now destruct cur|]. apply IH. left. discriminate.
      * apply IH. right. discriminate.
Qed.

Lemma pieces_from_no_gap (a : list (point F)) :
  forall cur, Forall (fun d => (d >? dec 3 100)%num = false) (distances a) ->
    pieces_from cur a = [cur ++ a].
Proof.
  induction a as [|p t IH]; intros cur Hd.
  - cbn. now rewrite app_nil_r.
  - destruct t as [|q t]; [reflexivity|].
    rewrite pieces_from_cons2.
    change (distances (p :: q :: t))
      with (sqrt_of (fst (vsub q p) * fst (vsub q p) + snd (vsub q p) * snd (vsub q p))%num
              :: distances (q :: t)) in Hd.
    inversion Hd as [|d ds Hd0 Hds]; subst.
    assert (G : gap p q = false) by exact Hd0.
    rewrite G, (IH (cur ++ [p]) Hds), <- app_assoc. reflexivity.
Qed.

Lemma longest_from_spec (l : list (list (point F))) :
  forall best, In (longest_from best l) (best :: l) /\
               Forall (fun x => length x <= length (longest_from best l)) (best :: l).
Proof.
  induction l as [|x l IH]; intros best.
  - cbn. split; [now left | constructor; [lia | constructor]].
  - cbn [longest_from]. destruct (Nat.ltb_spec (length best) (length x)) as [Hlt | Hge].
    + destruct (IH x) as [Hin Hall]. split.
      * destruct Hin as [<- | Hin]; [right; now left | right; now right].
      * inversion Hall as [|? ? Hx Hl]; subst.
        constructor; [lia|]. constructor; assumption.
    + destruct (IH best) as [Hin Hall]. split.
      * destruct Hin as [<- | Hin]; [now left | right; now right].
      * inversion Hall as [|? ? Hb Hl]; subst.
        constructor; [exact Hb|]. constructor; [lia | exact Hl].
Qed.

(** The first of the longest: no earlier piece is as long. *)
Lemma longest_from_first (l : list (list (point F))) :
  forall best, exists l1 l2,
    best :: l = l1 ++ longest_from best l :: l2 /\
    Forall (fun x => length x < length (longest_from best l)) l1.
Proof.
  induction l as [|x l IH]; intros best.
  - exists [], []. split; [reflexivity | constructor].
  - cbn [longest_from]. destruct (Nat.ltb_spec (length best) (length x)) as [Hlt | Hge].
    + destruct (IH x) as (l1 & l2 & E & Hall).
      exists (best :: l1), l2. split; [cbn; now rewrite E|].
      constructor; [|exact Hall].
      destruct (longest_from_spec l x) as [_ Hmax]. inversion Hmax; subst. lia.
    + destruct (IH best) as (l1 & l2 & E & Hall).
      destruct l1 as [|b l1].
      * exists [], (x :: l2). cbn in E |- *. injection E as E1 E2.
        split; [now rewrite <- E1, E2 | constructor].
      * cbn in E. injection E as <- E. exists (best :: x :: l1), l2.
        split; [cbn; do 2 f_equal; exact E|].
        inversion Hall; subst. constructor; [assumption|]. constructor; [lia | assumption].
Qed.

Lemma interleave_length (l : list (point F)) :
  length (interleave l) = 2 * (length l - 1).
Proof.
  induction l as [|p t IH]; [reflexivity|].
  destruct t as [|q t]; [reflexivity|].
  cbn [interleave length] in *. lia.
Qed.

Lemma interleave_even (l : list (point F)) :
  forall k x, nth_error l k = Some x -> nth_error (hd x l :: interleave l) (2 * k) = nth_error l k.
Proof.
  induction l as [|p t IH]; intros k x Hk; [destruct k; discriminate|].
  destruct k as [|k]; [reflexivity|].
  destruct t as [|q t]; [destruct k; discriminate|].
  cbn [nth_error] in Hk. specialize (IH k x Hk).
  replace (2 * S k) with (S (S (2 * k))) by lia.
  cbn [interleave hd nth_error]. cbn [hd] in IH.
  destruct (2 * k) as [|m] eqn:E.
  - assert (k = 0) by lia. subst. reflexivity.
  - cbn [nth_error] in IH. rewrite <- IH. destruct k; [lia|]. reflexivity.
Qed.
End PiecesTheorems.

Section DensifyFacts.
Context {F : Type} {A : Arith F} {S' : Sqrt F}.
Import Pyefd.

Lemma interleave_odd (l : list (point F)) :
  forall k x y z, nth_error l k = Some x -> nth_error l (S k) = Some y ->
    nth_error (z :: interleave l) (2 * k + 1) = Some (midpoint x y).
Proof.
  induction l as [|p t IH]; intros k x y z Hx Hy; [destruct k; discriminate|].
  destruct t as [|q t]; [destruct k; discriminate|].
  destruct k as [|k].
  - cbn in Hx, Hy. injection Hx as <-. injection Hy as <-. reflexivity.
  - change (nth_error (q :: t) k = Some x) in Hx.
    change (nth_error (q :: t) (S k) = Some y) in Hy.
    replace (2 * S k + 1) with (S (S (2 * k + 1))) by lia.
    change (nth_error (q :: interleave (q :: t)) (2 * k + 1) = Some (midpoint x y)).
    exact (IH k x y q Hx Hy).
Qed.

Lemma densify_ok (l : list (point F)) :
  l <> [] -> exists out, densify l = Ok out.
Proof. destruct l as [|p t]; [congruence|]. intros _. eexists. reflexivity. Qed.
End DensifyFacts.

(** X2.  Densification keeps every point of the piece, in order, at the
    even positions, puts the midpoint of each consecutive pair between
    the two, and so turns [n] points into [2n - 1]. *)
Theorem densify_interleaves {F : Type} {A : Arith F} {S' : Sqrt F}
    (l out : list (Pyefd.point F)) :
  Pyefd.densify l = Ok out ->
  length out = 2 * length l - 1 /\
  (forall k x, nth_error l k = Some x -> nth_error out (2 * k) = Some x) /\
  (forall k x y, nth_error l k = Some x -> nth_error l (S k) = Some y ->
     nth_error out (2 * k + 1) = Some (Pyefd.midpoint x y)).
Proof.
  destruct l as [|p t]; [discriminate|].
  intros E. cbn in E. injection E as <-. split; [|split].
  - change (S (length (Pyefd.interleave (p :: t))) = 2 * length (p :: t) - 1).
    rewrite interleave_length. cbn [length]. lia.
  - intros k x Hk.
    change (nth_error (hd x (p :: t) :: Pyefd.interleave (p :: t)) (2 * k) = Some x).
    rewrite (interleave_even (p :: t) k Hk). exact Hk.
  - intros k x y Hx Hy. exact (interleave_odd (p :: t) k p Hx Hy).
Qed.

(** X2, at a piece of two points in double precision. *)
Lemma densify_interleaves_witness :
  let out := [(@of_Z _ binary64 0, @of_Z _ binary64 0);
              @Pyefd.midpoint _ binary64 (@of_Z _ binary64 0, @of_Z _ binary64 0)
                (@of_Z _ binary64 1, @of_Z _ binary64 0);
              (@of_Z _ binary64 1, @of_Z _ binary64 0)] in
  length out = 2 * 2 - 1 /\
  (forall k x, nth_error [(@of_Z _ binary64 0, @of_Z _ binary64 0);
                          (@of_Z _ binary64 1, @of_Z _ binary64 0)] k = Some x ->
     nth_error out (2 * k) = Some x) /\
  (forall k x y,
     nth_error [(@of_Z _ binary64 0, @of_Z _ binary64 0);
                (@of_Z _ binary64 1, @of_Z _ binary64 0)] k = Some x ->
     nth_error [(@of_Z _ binary64 0, @of_Z _ binary64 0);
                (@of_Z _ binary64 1, @of_Z _ binary64 0)] (S k) = Some y ->
     nth_error out (2 * k + 1) = Some (@Pyefd.midpoint _ binary64 x y)).
Proof.
  apply (@densify_interleaves _ binary64 binary64_Sqrt
           [(@of_Z _ binary64 0, @of_Z _ binary64 0);
            (@of_Z _ binary64 1, @of_Z _ binary64 0)]).
  reflexivity.
Defined.

Lemma preprocess_cases {F : Type} {A : Arith F} {S' : Sqrt F}
    (a : list (Pyefd.point F)) :
  (a = [] /\ Pyefd.preprocess a = Raise IndexError) \/
  (exists l1 outer l2 out,
     Pyefd.subarrays a = l1 ++ outer :: l2 /\ outer <> [] /\
     Forall (fun x => length x < length outer) l1 /\
     Forall (fun x => length x <= length outer) l2 /\
     Pyefd.densify outer = Ok out /\
     Pyefd.preprocess a = Ok out).
Proof.
  destruct a as [|p t]; [left; split; reflexivity|]. right.
  assert (Hne : Forall (fun x => x <> []) (pieces_from [] (p :: t)))
    by (apply pieces_from_nonempty; right; discriminate).
  rewrite <- subarrays_pieces in Hne.
  unfold Pyefd.preprocess.
  destruct (pieces_from_head (p :: t) []) as (x0 & l & Es & _).
  rewrite <- subarrays_pieces in Es. rewrite Es in Hne |- *.
  set (x := [] ++ x0) in *.
  cbn [Pyefd.longest bind].
  destruct (longest_from_first l x) as (l1 & l2 & E & Hl1).
  destruct (longest_from_spec l x) as [Hin Hmax].
  assert (Hnz : Pyefd.longest_from x l <> []).
  { rewrite Forall_forall in Hne. apply Hne. exact Hin. }
  destruct (densify_ok Hnz) as (out & Hout).
  exists l1, (Pyefd.longest_from x l), l2, out.
  repeat split; try assumption.
  rewrite E in Hmax. apply Forall_app in Hmax. destruct Hmax as [_ Hmax].
  inversion Hmax; assumption.
Qed.

(** X3.  The head of [get_grasp] raises on the empty contour only, and
    then [IndexError]; on any other contour it keeps the first of the
    longest pieces, which is not empty, and returns it densified. *)
Theorem preprocess_outcome {F : Type} {A : Arith F} {S' : Sqrt F}
    (a : list (Pyefd.point F)) :
  (a = [] /\ Pyefd.preprocess a = Raise IndexError) \/
  (exists l1 outer l2 out,
     Pyefd.subarrays a = l1 ++ outer :: l2 /\ outer <> [] /\
     Forall (fun x => length x < length outer) l1 /\
     Forall (fun x => length x <= length outer) l2 /\
     Pyefd.densify outer = Ok out /\
     Pyefd.preprocess a = Ok out).
Proof. exact (preprocess_cases a). Qed.


(** X4.  Every piece after the first starts with two points that are
    more than 0.03 apart: the split index is the first index of the next
    slice, so the gap that ends a piece is inside the piece that follows. *)
Theorem later_pieces_start_with_a_gap {F : Type} {A : Arith F} {S' : Sqrt F}
    (a piece : list (Pyefd.point F)) :
  In piece (tl (Pyefd.subarrays a)) ->
  exists p q r, piece = p :: q :: r /\ Pyefd.gap p q = true.
Proof. rewrite subarrays_pieces. apply pieces_from_later. Qed.

(** X4, at the second piece of [gapped_contour]. *)
Lemma later_pieces_start_with_a_gap_witness :
  exists p q r, [(@of_Z _ binary64 0, @of_Z _ binary64 0);
                 (@dec _ binary64 5 100, @of_Z _ binary64 0);
                 (@dec _ binary64 6 100, @of_Z _ binary64 0)] = p :: q :: r /\
                @Pyefd.gap _ binary64 binary64_Sqrt p q = true.
Proof.
  apply (@later_pieces_start_with_a_gap _ binary64 binary64_Sqrt Inputs.gapped_contour).
  vm_compute. left. reflexivity.
Defined.

(** X5.  Consecutive pieces share exactly one point, and nothing is
    lost: the first piece followed by the other pieces without their
    first point is the contour. *)
Theorem pieces_overlap_and_cover {F : Type} {A : Arith F} {S' : Sqrt F}
    (a : list (Pyefd.point F)) :
  concat (hd [] (Pyefd.subarrays a) :: map (@tl _) (tl (Pyefd.subarrays a))) = a.
Proof. rewrite subarrays_pieces. exact (pieces_from_cover a []). Qed.

(** X6.  When no two consecutive points are more than 0.03 apart the
    whole contour is densified. *)
Theorem preprocess_without_gap {F : Type} {A : Arith F} {S' : Sqrt F}
    (a : list (Pyefd.point F)) :
  Forall (fun d => (d >? dec 3 100)%num = false) (Pyefd.distances a) ->
  Pyefd.preprocess a = Pyefd.densify a.
Proof.
  intros Hd. unfold Pyefd.preprocess.
  rewrite subarrays_pieces, (pieces_from_no_gap a [] Hd). reflexivity.
Qed.

(** X6, at two points 0.01 apart in double precision. *)
Lemma preprocess_without_gap_witness :
  @Pyefd.preprocess _ binary64 binary64_Sqrt
    [(@of_Z _ binary64 0, @of_Z _ binary64 0); (@dec _ binary64 1 100, @of_Z _ binary64 0)]
  = @Pyefd.densify _ binary64
    [(@of_Z _ binary64 0, @of_Z _ binary64 0); (@dec _ binary64 1 100, @of_Z _ binary64 0)].
Proof.
  apply (@preprocess_without_gap _ binary64 binary64_Sqrt).
  vm_compute. repeat constructor.
Defined.

(** * Curvature extrema and candidate indices *)

Section ExtremaFacts.
Context {F : Type} {A : Arith F}.
Import Pyefd.
Local Open Scope num_scope.


Lemma sign_changes_cons2 (up : bool) (i : nat) (d0 d1 : F) (t : list F) :
  sign_changes up i (d0 :: d1 :: t) =
  if turns up d0 d1 then (i + 1)%nat :: sign_changes up (S i) (d1 :: t)
  else sign_changes up (S i) (d1 :: t).
Proof. destruct up; reflexivity. Qed.

Lemma sign_changes_In (up : bool) (diff : list F) :
  forall i j, In j (sign_changes up i diff) <->
    exists m d0 d1, j = (i + m + 1)%nat /\ nth_error diff m = Some d0 /\
                    nth_error diff (S m) = Some d1 /\ turns up d0 d1 = true.
Proof.
  induction diff as [|d0 t IH]; intros i j.
  - split; [intros []|]. intros (m & d & d' & _ & Hm & _). destruct m; discriminate.
  - destruct t as [|d1 t].
    + split; [intros []|]. intros (m & d & d' & _ & _ & Hm & _).
      destruct m as [|[|m]]; discriminate.
    + rewrite sign_changes_cons2. split.
      * intros Hin.
        assert (Hcase : (turns up d0 d1 = true /\ j = (i + 1)%nat) \/
                        In j (sign_changes up (S i) (d1 :: t))).
        { destruct (turns up d0 d1); [destruct Hin as [<- | Hin]; auto | auto]. }
        destruct Hcase as [[Ht ->] | Hin'].
        -- exists 0%nat, d0, d1. repeat split; [lia | exact Ht].
        -- apply IH in Hin'. destruct Hin' as (m & e0 & e1 & -> & H0 & H1 & Ht).
           exists (S m), e0, e1. repeat split; [lia | exact H0 | exact H1 | exact Ht].
      * intros (m & e0 & e1 & -> & H0 & H1 & Ht).
        destruct m as [|m].
        -- cbn in H0, H1. injection H0 as <-. injection H1 as <-.
           rewrite Ht. left. lia.
        -- assert (Hin : In (i + S m + 1)%nat (sign_changes up (S i) (d1 :: t))).
           { apply IH. exists m, e0, e1. repeat split; [lia | exact H0 | exact H1 | exact Ht]. }
           destruct (turns up d0 d1); [right|]; exact Hin.
Qed.

Lemma np_diff1_nth (arr : list F) :
  forall m d, nth_error (np_diff1 arr) m = Some d <->
    exists x y, nth_error arr m = Some x /\ nth_error arr (S m) = Some y /\ d = y - x.
Proof.
  induction arr as [|x t IH]; intros m d.
  - split; [destruct m; discriminate|]. intros (x & y & Hx & _). destruct m; discriminate.
  - destruct t as [|y t].
    + split; [destruct m; discriminate|]. intros (x' & y' & _ & Hy & _).
      destruct m; discriminate.
    + change (np_diff1 (x :: y :: t)) with ((y - x) :: np_diff1 (y :: t)).
      destruct m as [|m].
      * cbn [nth_error]. split.
        -- intros E. injection E as <-. now exists x, y.
        -- intros (x' & y' & Hx & Hy & ->). injection Hx as <-. injection Hy as <-. reflexivity.
      * change (nth_error ((y - x) :: np_diff1 (y :: t)) (S m))
          with (nth_error (np_diff1 (y :: t)) m).
        rewrite IH. reflexivity.
Qed.

Lemma np_diff1_length (arr : list F) : length (np_diff1 arr) = (length arr - 1)%nat.
Proof.
  induction arr as [|x t IH]; [reflexivity|].
  destruct t as [|y t]; [reflexivity|].
  change (np_diff1 (x :: y :: t)) with ((y - x) :: np_diff1 (y :: t)).
  cbn [length] in *. lia.
Qed.

(** Every index found is an interior index. *)
Lemma extrema_interior (arr : list F) (i : nat) :
  In i (fst (find_local_max_min_indices arr) ++ snd (find_local_max_min_indices arr)) ->
  (1 <= i /\ i + 1 < length arr)%nat.
Proof.
  unfold find_local_max_min_indices. cbn [fst snd]. intros Hin.
  assert (H : exists up, In i (sign_changes up 0 (np_diff1 arr))).
  { apply in_app_or in Hin. destruct Hin; [exists true | exists false]; assumption. }
  destruct H as (up & Hup). apply sign_changes_In in Hup.
  destruct Hup as (m & d0 & d1 & -> & _ & H1 & _).
  assert (S m < length (np_diff1 arr))%nat by (apply nth_error_Some; congruence).
  rewrite np_diff1_length in *. lia.
Qed.

Lemma combinations_In (l : list nat) :
  forall i j, In (i, j) (combinations l) -> In i l /\ In j l.
Proof.
  induction l as [|a t IH]; intros i j Hin; [destruct Hin|].
  cbn [combinations] in Hin. apply in_app_or in Hin. destruct Hin as [Hin | Hin].
  - apply in_map_iff in Hin. destruct Hin as (x & E & Hx). injection E as <- <-.
    split; [now left | now right].
  - destruct (IH i j Hin). split; now right.
Qed.

Lemma central_length (f : list F) : length (central f) = (length f - 2)%nat.
Proof.
  induction f as [|a t IH]; [reflexivity|].
  destruct t as [|b [|c t]]; [reflexivity | reflexivity|].
  change (central (a :: b :: c :: t)) with ((c - a) / of_Z 2 :: central (b :: c :: t)).
  cbn [length] in *. lia.
Qed.

Lemma last_difference_length (f : list F) :
  (2 <= length f)%nat -> length (last_difference f) = 1%nat.
Proof.
  induction f as [|a t IH]; [cbn; lia|].
  destruct t as [|b [|c t]]; [cbn; lia | reflexivity|].
  intros _. change (last_difference (a :: b :: c :: t)) with (last_difference (b :: c :: t)).
  apply IH. cbn [length]. lia.
Qed.

Lemma np_gradient_length (f g : list F) :
  np_gradient f = Ok g -> length g = length f /\ (2 <= length f)%nat.
Proof.
  intros E.
  assert (H2 : (2 <= length f)%nat)
    by (destruct f as [|f0 [|f1 t]]; try discriminate; cbn [length]; lia).
  split; [|exact H2].
  assert (Hg : exists d, g = d :: central f ++ last_difference f).
  { destruct f as [|f0 [|f1 t]]; try discriminate.
    injection E as <-. eexists. reflexivity. }
  destruct Hg as (d & ->).
  cbn [length]. rewrite length_app, central_length, (last_difference_length f H2). lia.
Qed.

Lemma np_gradient_ok (f : list F) :
  (2 <= length f)%nat -> exists g, np_gradient f = Ok g.
Proof.
  destruct f as [|f0 [|f1 t]]; cbn [length]; try lia. intros _. eexists. reflexivity.
Qed.

Lemma np_gradient_raises (f : list F) :
  (length f < 2)%nat -> np_gradient f = Raise ValueError.
Proof.
  destruct f as [|f0 [|f1 t]]; cbn [length]; try lia; reflexivity.
Qed.
End ExtremaFacts.

Section PairFilterFacts.
Context {F : Type} {A : Arith F} {S' : Sqrt F}.
Import Pyefd.
Variable arccos : F -> F.


Lemma getitem_ok {B} (l : list B) (i : nat) :
  (i < length l)%nat -> exists b, getitem l i = Ok b /\ nth_error l i = Some b.
Proof.
  intros Hi. unfold getitem. destruct (nth_error l i) as [b|] eqn:E.
  - now exists b.
  - apply nth_error_None in E. lia.
Qed.

Lemma examine_ok (c : curve F) (n i j : nat) :
  length (c_xt c) = n -> length (c_yt c) = n -> length (c_outward_normals c) = n ->
  (i < n)%nat -> (j < n)%nat ->
  exists r, examine arccos c (i, j) = Ok r.
Proof.
  intros Hx Hy Hn Hi Hj. unfold examine.
  destruct (@getitem_ok _ (c_outward_normals c) i ltac:(lia)) as (n1 & -> & _).
  destruct (@getitem_ok _ (c_outward_normals c) j ltac:(lia)) as (n2 & -> & _).
  destruct (@getitem_ok _ (c_xt c) i ltac:(lia)) as (x1 & -> & _).
  destruct (@getitem_ok _ (c_yt c) i ltac:(lia)) as (y1 & -> & _).
  destruct (@getitem_ok _ (c_xt c) j ltac:(lia)) as (x2 & -> & _).
  destruct (@getitem_ok _ (c_yt c) j ltac:(lia)) as (y2 & -> & _).
  cbn [bind].
  repeat match goal with |- context [if ?b then _ else _] => destruct b end;
    eexists; reflexivity.
Qed.

Lemma collect_ok (c : curve F) (n : nat) (l : list (nat * nat)) :
  length (c_xt c) = n -> length (c_yt c) = n -> length (c_outward_normals c) = n ->
  (forall i j, In (i, j) l -> (i < n /\ j < n)%nat) ->
  exists grasps, collect arccos c l = Ok grasps /\
                 forall g, In g grasps -> In (fst g) l.
Proof.
  intros Hx Hy Hn. induction l as [|[i j] rest IH]; intros Hr.
  - exists []. split; [reflexivity | intros g []].
  - destruct (Hr i j (or_introl eq_refl)) as [Hi Hj].
    destruct (examine_ok c Hx Hy Hn Hi Hj) as (here & Ehere).
    destruct IH as (more & Emore & Hmore); [intros; apply Hr; now right|].
    exists (here ++ more). cbn [collect]. rewrite Ehere, Emore. split; [reflexivity|].
    intros g Hg. apply in_app_or in Hg. destruct Hg as [Hg | Hg].
    + left. revert Ehere. unfold examine.
      repeat match goal with
             | |- context [getitem ?l ?k] => destruct (getitem l k); cbn [bind]; try discriminate
             | |- context [if ?b then _ else _] => destruct b
             end; intros [= <-]; cbn in Hg;
        first [ destruct Hg as [<- | []]; reflexivity | destruct Hg ].
    + right. now apply Hmore.
Qed.
End PairFilterFacts.

Lemma get_extremum_points_cases {F : Type} {A : Arith F} {S' : Sqrt F}
    (fit_curve : list (F * F) -> list F * list F) (largest_contour : list (Pyefd.point F)) :
  length (fst (fit_curve largest_contour)) = length (snd (fit_curve largest_contour)) ->
  let n := length (fst (fit_curve largest_contour)) in
  ((n < 2)%nat -> Pyefd.get_extremum_points fit_curve largest_contour = Raise ValueError) /\
  ((2 <= n)%nat ->
   exists c, Pyefd.get_extremum_points fit_curve largest_contour = Ok c /\
     Pyefd.c_xt c = fst (fit_curve largest_contour) /\
     Pyefd.c_yt c = snd (fit_curve largest_contour) /\
     length (Pyefd.c_outward_normals c) = n /\
     forall i j, In (i, j) (Pyefd.c_combinations_list c) ->
       (1 <= i /\ i + 1 < n /\ 1 <= j /\ j + 1 < n)%nat).
Proof.
  unfold Pyefd.get_extremum_points.
  destruct (fit_curve largest_contour) as [xt yt]. cbn [fst snd]. intros Hlen.
  cbv zeta. set (n := length xt). split.
  - intros Hn. rewrite (np_gradient_raises xt Hn). reflexivity.
  - intros Hn.
    destruct (np_gradient_ok xt Hn) as (dxdt & Ex).
    destruct (np_gradient_ok yt ltac:(lia)) as (dydt & Ey).
    pose proof Ex as Lx; apply np_gradient_length in Lx; destruct Lx as [Lx _].
    pose proof Ey as Ly; apply np_gradient_length in Ly; destruct Ly as [Ly _].
    destruct (np_gradient_ok dxdt ltac:(lia)) as (d2x & Ex2).
    destruct (np_gradient_ok dydt ltac:(lia)) as (d2y & Ey2).
    pose proof Ex2 as Lx2; apply np_gradient_length in Lx2; destruct Lx2 as [Lx2 _].
    pose proof Ey2 as Ly2; apply np_gradient_length in Ly2; destruct Ly2 as [Ly2 _].
    rewrite Ex, Ey. cbn [bind]. rewrite Ex2, Ey2. cbn [bind].
    set (curvature := map _ (combine d2x d2y)).
    destruct (Pyefd.find_local_max_min_indices curvature) as [maxima minima] eqn:Em.
    eexists. split; [reflexivity|].
    cbn [Pyefd.c_xt Pyefd.c_yt Pyefd.c_outward_normals Pyefd.c_combinations_list].
    split; [reflexivity|]. split; [reflexivity|]. split.
    + rewrite length_map. change (length (@combine F F dxdt dydt) = n).
      rewrite length_combine. fold n. lia.
    + intros i j Hin. apply combinations_In in Hin. destruct Hin as [Hi Hj].
      assert (Lc : length curvature = n).
      { unfold curvature. rewrite length_map. change (length (@combine F F d2x d2y) = n).
        rewrite length_combine. fold n. lia. }
      pose proof (extrema_interior curvature i) as Pi.
      pose proof (extrema_interior curvature j) as Pj.
      rewrite Em, Lc in Pi, Pj. cbn [fst snd] in Pi, Pj.
      specialize (Pi Hi). specialize (Pj Hj). lia.
Qed.

(** X7.  The curve analysis succeeds exactly when the fitted curve has
    at least two samples, and raises [ValueError] otherwise.  When it
    succeeds, the curve keeps the samples, has one outward normal per
    sample, and every index in every candidate combination is an
    interior index of the samples. *)
Theorem extremum_candidates_in_range {F : Type} {A : Arith F} {S' : Sqrt F}
    (fit_curve : list (F * F) -> list F * list F) (largest_contour : list (Pyefd.point F)) :
  length (fst (fit_curve largest_contour)) = length (snd (fit_curve largest_contour)) ->
  let n := length (fst (fit_curve largest_contour)) in
  ((n < 2)%nat -> Pyefd.get_extremum_points fit_curve largest_contour = Raise ValueError) /\
  ((2 <= n)%nat ->
   exists c, Pyefd.get_extremum_points fit_curve largest_contour = Ok c /\
     Pyefd.c_xt c = fst (fit_curve largest_contour) /\
     Pyefd.c_yt c = snd (fit_curve largest_contour) /\
     length (Pyefd.c_outward_normals c) = n /\
     forall i j, In (i, j) (Pyefd.c_combinations_list c) ->
       (1 <= i /\ i + 1 < n /\ 1 <= j /\ j + 1 < n)%nat).
Proof. exact (get_extremum_points_cases fit_curve largest_contour). Qed.


(** X7, at a fitted curve of five samples in double precision. *)
Lemma extremum_candidates_in_range_witness :
  let fit_curve := fun _ : list (spec_float * spec_float) =>
    ([@of_Z _ binary64 0; @of_Z _ binary64 1; @of_Z _ binary64 4; @of_Z _ binary64 5;
      @of_Z _ binary64 8],
     [@of_Z _ binary64 0; @of_Z _ binary64 0; @of_Z _ binary64 0; @of_Z _ binary64 0;
      @of_Z _ binary64 0]) in
  let n := 5%nat in
  ((n < 2)%nat ->
   @Pyefd.get_extremum_points _ binary64 binary64_Sqrt fit_curve [] = Raise ValueError) /\
  ((2 <= n)%nat ->
   exists c, @Pyefd.get_extremum_points _ binary64 binary64_Sqrt fit_curve [] = Ok c /\
     Pyefd.c_xt c = fst (fit_curve []) /\
     Pyefd.c_yt c = snd (fit_curve []) /\
     length (Pyefd.c_outward_normals c) = n /\
     forall i j, In (i, j) (Pyefd.c_combinations_list c) ->
       (1 <= i /\ i + 1 < n /\ 1 <= j /\ j + 1 < n)%nat).
Proof.
  apply (@extremum_candidates_in_range _ binary64 binary64_Sqrt
           (fun _ => ([@of_Z _ binary64 0; @of_Z _ binary64 1; @of_Z _ binary64 4;
                       @of_Z _ binary64 5; @of_Z _ binary64 8],
                      [@of_Z _ binary64 0; @of_Z _ binary64 0; @of_Z _ binary64 0;
                       @of_Z _ binary64 0; @of_Z _ binary64 0])) []).
  reflexivity.
Defined.


(** * Extrema and normals over the reals *)


Section RealExtrema.
Import Pyefd.
Local Open Scope R_scope.

Lemma turns_up_R (x y z : R) :
  turns true (y - x)%num (z - y)%num = true <-> x < y /\ z < y.
Proof.
  unfold turns. cbn [ltb sub of_Z R_Arith]. rewrite andb_true_iff, !Rltb_true. lra.
Qed.

Lemma turns_down_R (x y z : R) :
  turns false (y - x)%num (z - y)%num = true <-> y < x /\ y < z.
Proof.
  unfold turns. cbn [ltb sub of_Z R_Arith]. rewrite andb_true_iff, !Rltb_true. lra.
Qed.

Lemma sign_changes_R (up : bool) (arr : list R) (i : nat) :
  In i (sign_changes up 0 (np_diff1 arr)) <->
  exists a b c, (1 <= i)%nat /\ nth_error arr (i - 1) = Some a /\
                nth_error arr i = Some b /\ nth_error arr (i + 1) = Some c /\
                turns up (b - a)%num (c - b)%num = true.
Proof.
  rewrite sign_changes_In. split.
  - intros (m & d0 & d1 & -> & H0 & H1 & Ht).
    apply np_diff1_nth in H0. destruct H0 as (a & b & Ha & Hb & ->).
    apply np_diff1_nth in H1. destruct H1 as (b' & c & Hb' & Hc & ->).
    assert (b' = b) by congruence. subst b'.
    exists a, b, c.
    replace (0 + m + 1 - 1)%nat with m by lia.
    replace (0 + m + 1 + 1)%nat with (S (S m)) by lia.
    replace (0 + m + 1)%nat with (S m) by lia.
    repeat split; [lia | assumption..].
  - intros (a & b & c & Hi & Ha & Hb & Hc & Ht).
    exists (i - 1)%nat, (b - a)%num, (c - b)%num.
    split; [lia|]. split; [|split; [|exact Ht]].
    + apply np_diff1_nth. exists a, b. split; [exact Ha|]. split; [|reflexivity].
      replace (S (i - 1)) with i by lia. exact Hb.
    + apply np_diff1_nth. exists b, c. replace (S (i - 1)) with i by lia.
      split; [exact Hb|]. split; [|reflexivity].
      replace (S i) with (i + 1)%nat by lia. exact Hc.
Qed.
End RealExtrema.

(** X9.  Over the reals, the indices the extremum search returns are
    exactly the interior indices at which the array is strictly above
    both neighbours (maxima) or strictly below both (minima); a plateau
    is never reported. *)
Theorem local_extrema_are_strict (arr : list R) (i : nat) :
  (In i (fst (Pyefd.find_local_max_min_indices arr)) <->
   exists a b c, (1 <= i)%nat /\ nth_error arr (i - 1) = Some a /\
                 nth_error arr i = Some b /\ nth_error arr (i + 1) = Some c /\
                 (a < b /\ c < b)%R) /\
  (In i (snd (Pyefd.find_local_max_min_indices arr)) <->
   exists a b c, (1 <= i)%nat /\ nth_error arr (i - 1) = Some a /\
                 nth_error arr i = Some b /\ nth_error arr (i + 1) = Some c /\
                 (b < a /\ b < c)%R).
Proof.
  unfold Pyefd.find_local_max_min_indices. cbn [fst snd]. split.
  - rewrite sign_changes_R. split; intros (a & b & c & H1 & Ha & Hb & Hc & Ht);
      exists a, b, c; repeat split; try assumption; apply turns_up_R in Ht || apply turns_up_R;
      tauto.
  - rewrite sign_changes_R. split; intros (a & b & c & H1 & Ha & Hb & Hc & Ht);
      exists a, b, c; repeat split; try assumption; apply turns_down_R in Ht || apply turns_down_R;
      tauto.
Qed.

Section RealNormals.
Import Pyefd.
Local Open Scope R_scope.



End RealNormals.





(** * Scoring, ranking and the object across calls *)

Section ArgmaxFacts.
Import GraspMaskRun.

Lemma argmax_from_spec (l : list Z) :
  forall (pre : list Z) (best_i : nat) (best : Z),
    nth_error pre best_i = Some best ->
    (forall k w, nth_error pre k = Some w -> (w <= best)%Z) ->
    (forall k w, k < best_i -> nth_error pre k = Some w -> (w < best)%Z) ->
    let r := argmax_from best_i best (length pre) l in
    exists v, nth_error (pre ++ l) r = Some v /\
              (forall k w, nth_error (pre ++ l) k = Some w -> (w <= v)%Z) /\
              (forall k w, k < r -> nth_error (pre ++ l) k = Some w -> (w < v)%Z).
Proof.
  induction l as [|x l IH]; intros pre best_i best Hb Hmax Hfirst.
  - cbn. rewrite app_nil_r. exists best. auto.
  - cbn [argmax_from].
    assert (Hlen : length (pre ++ [x]) = S (length pre))
      by (rewrite length_app; cbn [length]; lia).
    replace (pre ++ x :: l) with ((pre ++ [x]) ++ l) by (rewrite <- app_assoc; reflexivity).
    assert (Hbi : best_i < length pre) by (apply nth_error_Some; congruence).
    destruct (Z.ltb_spec best x) as [Hlt | Hge].
    + rewrite <- Hlen. apply IH.
      * rewrite nth_error_app2 by lia. now rewrite Nat.sub_diag.
      * intros k w Hk. destruct (Nat.lt_ge_cases k (length pre)) as [Hin | Hout].
        -- rewrite nth_error_app1 in Hk by lia. specialize (Hmax k w Hk). lia.
        -- rewrite nth_error_app2 in Hk by lia.
           destruct (k - length pre) as [|m]; [|destruct m; discriminate].
           injection Hk as <-. lia.
      * intros k w Hk Hw. rewrite nth_error_app1 in Hw by lia.
        specialize (Hmax k w Hw). lia.
    + rewrite <- Hlen. apply IH.
      * rewrite nth_error_app1 by lia. exact Hb.
      * intros k w Hk. destruct (Nat.lt_ge_cases k (length pre)) as [Hin | Hout].
        -- rewrite nth_error_app1 in Hk by lia. exact (Hmax k w Hk).
        -- rewrite nth_error_app2 in Hk by lia.
           destruct (k - length pre) as [|m]; [|destruct m; discriminate].
           injection Hk as <-. lia.
      * intros k w Hk Hw. rewrite nth_error_app1 in Hw by lia.
        exact (Hfirst k w Hk Hw).
Qed.

Lemma np_argmax_spec (img : list (list Z)) (i : nat) :
  np_argmax img = Ok i ->
  exists v, nth_error (concat img) i = Some v /\
            (forall w, In w (concat img) -> (w <= v)%Z) /\
            (forall k w, k < i -> nth_error (concat img) k = Some w -> (w < v)%Z).
Proof.
  unfold np_argmax. destruct (concat img) as [|v l]; [discriminate|].
  intros E. injection E as <-.
  destruct (@argmax_from_spec l [v] 0 v) as (m & Hm & Hmax & Hfirst).
  - reflexivity.
  - intros [|[|k]] w Hk; try discriminate. injection Hk as <-. lia.
  - intros k w Hk. lia.
  - exists m. split; [exact Hm|]. split; [|exact Hfirst].
    intros w Hw. apply In_nth_error in Hw. destruct Hw as (k & Hk). exact (Hmax k w Hk).
Qed.
End ArgmaxFacts.

(** X12.  The score of a filtered image is its largest response, taken
    at the first position (in row-major order) where the largest
    response occurs; the returned [x] is the truncated second coordinate
    and [y] the truncated first coordinate of that position, column
    first and row second, mapped by the inverse transformation. *)
Theorem calculate_best_grasp_first_maximum {F : Type} {A : Arith F}
    (filtered_rotated : list (list Z)) (inv_affine_trans : GraspMaskRun.affine F)
    (score x y : Z) :
  GraspMaskRun.calculate_best_grasp filtered_rotated inv_affine_trans = Ok (score, x, y) ->
  exists i,
    nth_error (concat filtered_rotated) i = Some score /\
    (forall w, In w (concat filtered_rotated) -> (w <= score)%Z) /\
    (forall k w, k < i -> nth_error (concat filtered_rotated) k = Some w -> (w < score)%Z) /\
    let row := Nat.div i (GraspMaskRun.width_of filtered_rotated) in
    let col := Nat.modulo i (GraspMaskRun.width_of filtered_rotated) in
    let p := GraspMaskRun.affine_apply inv_affine_trans
               (of_Z (Z.of_nat col)) (of_Z (Z.of_nat row)) in
    to_int (snd p) = Ok x /\ to_int (fst p) = Ok y.
Proof.
  unfold GraspMaskRun.calculate_best_grasp.
  destruct (GraspMaskRun.np_argmax filtered_rotated) as [e|i] eqn:Ei; [discriminate|].
  cbn [bind]. destruct (np_argmax_spec _ Ei) as (v & Hv & Hmax & Hfirst).
  unfold getitem. rewrite Hv. cbn [bind].
  unfold GraspMaskRun.unravel_index. cbn [fst snd].
  destruct (to_int (snd _)) as [e|x'] eqn:Ex; [discriminate|]. cbn [bind].
  destruct (to_int (fst _)) as [e|y'] eqn:Ey; [discriminate|]. cbn [bind].
  intros E. injection E as <- <- <-.
  exists i. repeat split; assumption.
Qed.

(** X12, at an image whose largest response occurs twice, with the
    identity as inverse transformation, over the rationals. *)
Lemma calculate_best_grasp_first_maximum_witness :
  exists i,
    nth_error (concat [[1; 3]; [3; 2]]%Z) i = Some 3%Z /\
    (forall w, In w (concat [[1; 3]; [3; 2]]%Z) -> (w <= 3)%Z) /\
    (forall k w, k < i -> nth_error (concat [[1; 3]; [3; 2]]%Z) k = Some w -> (w < 3)%Z) /\
    let row := Nat.div i (GraspMaskRun.width_of [[1; 3]; [3; 2]]%Z) in
    let col := Nat.modulo i (GraspMaskRun.width_of [[1; 3]; [3; 2]]%Z) in
    let p := GraspMaskRun.affine_apply ((1, 0, 0), (0, 1, 0))%Q
               (of_Z (Z.of_nat col)) (of_Z (Z.of_nat row)) in
    to_int (snd p) = Ok 0%Z /\ to_int (fst p) = Ok 1%Z.
Proof.
  apply (@calculate_best_grasp_first_maximum Q Q_Arith [[1; 3]; [3; 2]]%Z
           ((1, 0, 0), (0, 1, 0))%Q 3%Z 0%Z 1%Z).
  reflexivity.
Defined.

Section ScoringFacts.
Import GraspMaskRun.
Context {F : Type} {A : Arith F}.
Variable Contour : Type.
Variable get_largest_contour : list (list Z) -> result Contour.
Variable get_major_directions : Contour -> list (list Z) -> (F * F) * F.
Variable getRotationMatrix2D : F * F -> F -> affine F.
Variable warpAffine : list (list Z) -> affine F -> list (list Z).
Variable filter2D : list (list Z) -> ndarray F -> list (list Z).
Variable pi : F.

Lemma score_masks_spec (depth_rotated : list (list Z)) (inv : affine F) (angle : F)
    (ms : list (ndarray F)) :
  forall gs, score_masks filter2D depth_rotated inv angle ms = Ok gs ->
    map (@g_angle F) gs = repeat angle (length ms) /\
    map (fun g => (g_rows g, g_cols g)) gs = map (@shape F) ms.
Proof.
  induction ms as [|mask ms IH]; intros gs E.
  - injection E as <-. split; reflexivity.
  - cbn [score_masks] in E.
    destruct (calculate_best_grasp _ _) as [e|[[score x] y]]; [discriminate|].
    cbn [bind] in E.
    destruct (score_masks filter2D depth_rotated inv angle ms) as [e|rest];
      [discriminate|].
    cbn [bind] in E. injection E as <-.
    destruct (IH rest eq_refl) as [Ha Hs].
    cbn [map length repeat g_angle g_rows g_cols]. rewrite Ha, Hs.
    split; [reflexivity|]. f_equal. now destruct (shape mask).
Qed.

Lemma score_angles_spec (img : list (list Z)) (contour_mean : F * F)
    (ms : list (ndarray F)) (angs : list F) :
  forall gs, score_angles getRotationMatrix2D warpAffine filter2D img contour_mean ms angs
             = Ok gs ->
    map (@g_angle F) gs = flat_map (fun a => repeat a (length ms)) angs /\
    map (fun g => (g_rows g, g_cols g)) gs
      = concat (repeat (map (@shape F) ms) (length angs)).
Proof.
  induction angs as [|angle angs IH]; intros gs E.
  - injection E as <-. split; reflexivity.
  - cbn [score_angles] in E.
    destruct (score_masks _ _ _ _ ms) as [e|here] eqn:Eh; [discriminate|].
    cbn [bind] in E.
    destruct (score_angles _ _ _ img contour_mean ms angs) as [e|rest]; [discriminate|].
    cbn [bind] in E. injection E as <-.
    destruct (score_masks_spec _ _ _ _ Eh) as [Ha Hs].
    destruct (IH rest eq_refl) as [Ha' Hs'].
    rewrite !map_app, Ha, Hs, Ha', Hs'. split; reflexivity.
Qed.
End ScoringFacts.

(** X13.  The two loops produce one candidate for every pair of an
    angle and a mask, angle by angle and, within an angle, mask by mask:
    each candidate carries its angle and the shape of its mask. *)
Theorem score_angles_one_candidate_per_angle_and_mask {F : Type} {A : Arith F}
    (getRotationMatrix2D : F * F -> F -> GraspMaskRun.affine F)
    (warpAffine : list (list Z) -> GraspMaskRun.affine F -> list (list Z))
    (filter2D : list (list Z) -> ndarray F -> list (list Z))
    (img : list (list Z)) (contour_mean : F * F)
    (ms : list (ndarray F)) (angs : list F) (gs : list (GraspMaskRun.grasp F)) :
  GraspMaskRun.score_angles getRotationMatrix2D warpAffine filter2D img contour_mean ms angs
    = Ok gs ->
  length gs = length angs * length ms /\
  map (@GraspMaskRun.g_angle F) gs = flat_map (fun a => repeat a (length ms)) angs /\
  map (fun g => (GraspMaskRun.g_rows g, GraspMaskRun.g_cols g)) gs
    = concat (repeat (map (@shape F) ms) (length angs)).
Proof.
  intros E. destruct (score_angles_spec _ _ _ _ _ _ _ E) as [Ha Hs].
  split; [|split; assumption].
  rewrite <- (length_map (@GraspMaskRun.g_angle F)), Ha.
  clear. induction angs as [|a angs IH]; [reflexivity|].
  cbn [flat_map length]. rewrite length_app, repeat_length, IH. lia.
Qed.

(** X13, at two angles and one mask over the rationals, with stand-ins
    for the OpenCV routines. *)
Lemma score_angles_one_candidate_per_angle_and_mask_witness :
  let gs := [GraspMaskRun.mk_grasp 255 0 0 1 1 0%Q; GraspMaskRun.mk_grasp 255 0 0 1 1 5%Q] in
  let ms := [mk_ndarray (1, 1)%Z [[1%Q]]] in
  length gs = length [0; 5]%Q * length ms /\
  map (@GraspMaskRun.g_angle Q) gs = flat_map (fun a => repeat a (length ms)) [0; 5]%Q /\
  map (fun g => (GraspMaskRun.g_rows g, GraspMaskRun.g_cols g)) gs
    = concat (repeat (map (@shape Q) ms) (length [0; 5]%Q)).
Proof.
  apply (@score_angles_one_candidate_per_angle_and_mask Q Q_Arith
           (fun c _ => Rotation.rotation_matrix 1%Q 0%Q c)
           (fun img _ => img) (fun img _ => img) [[255; 0]]%Z (0, 0)%Q
           [mk_ndarray (1, 1)%Z [[1%Q]]] [0; 5]%Q).
  reflexivity.
Defined.

Section CallFacts.
Import GraspMaskRun Callback.
Context {F : Type} {A : Arith F}.
Variable Contour : Type.
Variable get_largest_contour : list (list Z) -> result Contour.
Variable get_major_directions : Contour -> list (list Z) -> (F * F) * F.
Variable getRotationMatrix2D : F * F -> F -> affine F.
Variable warpAffine : list (list Z) -> affine F -> list (list Z).
Variable filter2D : list (list Z) -> ndarray F -> list (list Z).
Variable pi : F.

Let call := depth_image_callback get_largest_contour get_major_directions
              getRotationMatrix2D warpAffine filter2D pi.
Let run := deliver get_largest_contour get_major_directions
             getRotationMatrix2D warpAffine filter2D pi.
Let good := analysable get_largest_contour get_major_directions.

Lemma callback_frame (self : GraspMask F) (depth_image : list (list F)) :
  top_k (call self depth_image) = top_k self /\
  grasp_mode (call self depth_image) = grasp_mode self /\
  mask_sizes (call self depth_image) = mask_sizes self /\
  weights (call self depth_image) = weights self /\
  masks (call self depth_image) = masks self.
Proof.
  unfold call, depth_image_callback, get_grasp.
  destruct (analyse _ _ _) as [e|[[img cm] ang]]; repeat split; reflexivity.
Qed.

Lemma callback_angles (self : GraspMask F) (depth_image : list (list F)) :
  grasp_mode self = ALL_ROTATIONS ->
  length (angles (call self depth_image)) =
  length (angles self) + (if good depth_image then 1 else 0).
Proof.
  unfold call, good, depth_image_callback, analysable, get_grasp. intros Hmode.
  destruct (analyse _ _ _) as [e|[[img cm] ang]]; cbn [fst]; [lia|].
  unfold update_angles. rewrite Hmode. cbn [angles]. rewrite length_app. reflexivity.
Qed.

Lemma deliver_angles (frames : list (list (list F))) :
  forall self, grasp_mode self = ALL_ROTATIONS ->
    grasp_mode (run self frames) = ALL_ROTATIONS /\
    length (angles (run self frames)) =
    length (angles self) + length (filter good frames).
Proof.
  induction frames as [|f frames IH]; intros self Hmode.
  - cbn. split; [exact Hmode | lia].
  - assert (Hmode' : grasp_mode (call self f) = ALL_ROTATIONS).
    { destruct (callback_frame self f) as (_ & -> & _). exact Hmode. }
    destruct (IH (call self f) Hmode') as [Hm Hl].
    change (run self (f :: frames)) with (run (call self f) frames).
    split; [exact Hm|]. rewrite Hl, (callback_angles self f Hmode).
    cbn [filter]. destruct (good f); cbn [length]; lia.
Qed.
End CallFacts.


(** X15.  In [ALL_ROTATIONS] mode the angle list never shrinks across
    the frames of a topic: after the frames have been delivered it is
    longer by the number of frames whose analysis succeeded, and the
    object is still in [ALL_ROTATIONS] mode. *)
Theorem angle_list_grows_with_every_frame {F : Type} {A : Arith F} (Contour : Type)
    (get_largest_contour : list (list Z) -> result Contour)
    (get_major_directions : Contour -> list (list Z) -> (F * F) * F)
    (getRotationMatrix2D : F * F -> F -> GraspMaskRun.affine F)
    (warpAffine : list (list Z) -> GraspMaskRun.affine F -> list (list Z))
    (filter2D : list (list Z) -> ndarray F -> list (list Z)) (pi : F)
    (self : GraspMaskRun.GraspMask F) (frames : list (list (list F))) :
  GraspMaskRun.grasp_mode self = GraspMaskRun.ALL_ROTATIONS ->
  let self' := Callback.deliver get_largest_contour get_major_directions
                 getRotationMatrix2D warpAffine filter2D pi self frames in
  GraspMaskRun.grasp_mode self' = GraspMaskRun.ALL_ROTATIONS /\
  length (GraspMaskRun.angles self') =
  length (GraspMaskRun.angles self) +
  length (filter (Callback.analysable get_largest_contour get_major_directions) frames).
Proof.
  intros Hmode. cbv zeta.
  exact (deliver_angles get_largest_contour get_major_directions getRotationMatrix2D
           warpAffine filter2D pi frames self Hmode).
Qed.

(** X15, at three frames of which the second has no sample. *)
Lemma angle_list_grows_with_every_frame_witness :
  let self' := Callback.deliver (fun _ => Ok tt) (fun _ _ => ((0, 0), 30)%Q)
                 (fun c _ => Rotation.rotation_matrix 1%Q 0%Q c)
                 (fun img _ => img) (fun img _ => img) (355 # 113)%Q
                 Inputs.small_self [[[0; 1 # 7]]; []; [[1; 2]]]%Q in
  GraspMaskRun.grasp_mode self' = GraspMaskRun.ALL_ROTATIONS /\
  length (GraspMaskRun.angles self') =
  length (GraspMaskRun.angles Inputs.small_self) +
  length (filter (Callback.analysable (fun _ => Ok tt) (fun _ _ => ((0, 0), 30)%Q))
            [[[0; 1 # 7]]; []; [[1; 2]]]%Q).
Proof.
  apply (@angle_list_grows_with_every_frame Q Q_Arith unit (fun _ => Ok tt)
           (fun _ _ => ((0, 0), 30)%Q)
           (fun c _ => Rotation.rotation_matrix 1%Q 0%Q c)
           (fun img _ => img) (fun img _ => img) (355 # 113)%Q
           Inputs.small_self [[[0; 1 # 7]]; []; [[1; 2]]]%Q).
  reflexivity.
Defined.

Section BestFacts.
Import GraspMaskRun.
Variable F : Type.

Lemma filter_head_split (p : grasp F -> bool) (l : list (grasp F)) :
  forall b r, filter p l = b :: r ->
    exists l1 l2, l = l1 ++ b :: l2 /\ forall g, In g l1 -> p g = false.
Proof.
  induction l as [|x l IH]; intros b r E; [discriminate|].
  cbn [filter] in E. destruct (p x) eqn:Px.
  - injection E as -> _. exists [], l. split; [reflexivity | intros g []].
  - destruct (IH b r E) as (l1 & l2 & -> & Hl1).
    exists (x :: l1), l2. split; [reflexivity|].
    intros g [<- | Hg]; [exact Px | now apply Hl1].
Qed.

Lemma rank_head (cands : list (grasp F)) (best : grasp F) (rest : list (grasp F)) :
  rank cands = best :: rest ->
  exists before after,
    cands = before ++ best :: after /\
    (forall g, In g before -> (g_score g < g_score best)%Z) /\
    (forall g, In g after -> (g_score g <= g_score best)%Z).
Proof.
  intros Er.
  pose proof (@rank_sorted F cands) as Hs. rewrite Er in Hs.
  apply StronglySorted_inv in Hs. destruct Hs as [_ Hall]. rewrite Forall_forall in Hall.
  assert (Hmax : forall g, In g cands -> (g_score g <= g_score best)%Z).
  { intros g Hg.
    apply (Permutation_in g (sorted_perm Z.ltb (@g_score F) true cands)) in Hg.
    fold (rank cands) in Hg. rewrite Er in Hg. destruct Hg as [<- | Hg]; [lia|].
    exact (Hall g Hg). }
  pose proof (@rank_stable F cands (g_score best)) as Hst. rewrite Er in Hst.
  cbn [filter] in Hst. rewrite Z.eqb_refl in Hst. symmetry in Hst.
  destruct (filter_head_split _ _ Hst) as (before & after & E & Hb).
  exists before, after. split; [exact E|]. split.
  - intros g Hg. specialize (Hb g Hg). apply Z.eqb_neq in Hb.
    assert (g_score g <= g_score best)%Z
      by (apply Hmax; rewrite E; apply in_or_app; now left). lia.
  - intros g Hg. apply Hmax. rewrite E. apply in_or_app. right. now right.
Qed.
End BestFacts.

(** X16.  The grasp returned is the candidate of the largest score, and
    among candidates of the largest score the one generated first; the
    returned width is the number of rows of the last mask of the bank,
    whichever mask produced the returned candidate. *)
Theorem score_and_rank_returns_first_best {F : Type} {A : Arith F}
    (getRotationMatrix2D : F * F -> F -> GraspMaskRun.affine F)
    (warpAffine : list (list Z) -> GraspMaskRun.affine F -> list (list Z))
    (filter2D : list (list Z) -> ndarray F -> list (list Z)) (pi : F)
    (self : GraspMaskRun.GraspMask F) (img : list (list Z)) (contour_mean : F * F)
    (ranked : list (GraspMaskRun.grasp F)) (x y : Z) (a : F) (w : Z) :
  GraspMaskRun.score_and_rank getRotationMatrix2D warpAffine filter2D pi self img contour_mean
    = Ok (ranked, (x, y, a, w)) ->
  exists before best after front last_mask,
    GraspMaskRun.score_angles getRotationMatrix2D warpAffine filter2D img contour_mean
      (GraspMaskRun.masks self) (GraspMaskRun.angles self) = Ok (before ++ best :: after) /\
    ranked = GraspMaskRun.rank (before ++ best :: after) /\
    (forall g, In g before -> (GraspMaskRun.g_score g < GraspMaskRun.g_score best)%Z) /\
    (forall g, In g after -> (GraspMaskRun.g_score g <= GraspMaskRun.g_score best)%Z) /\
    x = GraspMaskRun.g_x best /\ y = GraspMaskRun.g_y best /\
    a = (GraspMaskRun.g_angle best * pi / of_Z 180 + pi / of_Z 2)%num /\
    GraspMaskRun.masks self = front ++ [last_mask] /\
    w = fst (shape last_mask).
Proof.
  unfold GraspMaskRun.score_and_rank.
  destruct (GraspMaskRun.score_angles _ _ _ _ _ _ _) as [e|cands] eqn:Ec; [discriminate|].
  cbn [bind].
  destruct (GraspMaskRun.rank cands) as [|best rest] eqn:Er; [discriminate|].
  cbn [getitem nth_error bind].
  destruct (rev (GraspMaskRun.masks self)) as [|mask r] eqn:Em; [discriminate|].
  cbn [getitem nth_error bind]. intros E. injection E as <- <- <- <- <-.
  destruct (rank_head _ Er) as (before & after & -> & Hb & Ha).
  exists before, best, after, (rev r), mask.
  repeat split; try assumption; try reflexivity.
  - symmetry. exact Er.
  - rewrite <- (rev_involutive (GraspMaskRun.masks self)), Em. reflexivity.
Qed.

(** X16, at two candidates of equal score: the first one is returned. *)
Lemma score_and_rank_returns_first_best_witness :
  exists before best after front last_mask,
    @GraspMaskRun.score_angles Q Q_Arith (fun c _ => Rotation.rotation_matrix 1%Q 0%Q c)
      (fun img _ => img) (fun img _ => img) [[255; 0]]%Z (0, 0)%Q
      [mk_ndarray (1, 1)%Z [[1%Q]]] [0; 5]%Q = Ok (before ++ best :: after) /\
    [GraspMaskRun.mk_grasp 255 0 0 1 1 0%Q; GraspMaskRun.mk_grasp 255 0 0 1 1 5%Q]
      = GraspMaskRun.rank (before ++ best :: after) /\
    (forall g, In g before -> (GraspMaskRun.g_score g < GraspMaskRun.g_score best)%Z) /\
    (forall g, In g after -> (GraspMaskRun.g_score g <= GraspMaskRun.g_score best)%Z) /\
    0%Z = GraspMaskRun.g_x best /\ 0%Z = GraspMaskRun.g_y best /\
    (0 * (355 # 113) / 180 + (355 # 113) / 2)%Q
      = (GraspMaskRun.g_angle best * (355 # 113)%Q / of_Z 180 + (355 # 113)%Q / of_Z 2)%num /\
    [mk_ndarray (1, 1)%Z [[1%Q]]] = front ++ [last_mask] /\
    1%Z = fst (shape last_mask).
Proof.
  apply (@score_and_rank_returns_first_best Q Q_Arith
           (fun c _ => Rotation.rotation_matrix 1%Q 0%Q c)
           (fun img _ => img) (fun img _ => img) (355 # 113)%Q
           (GraspMaskRun.mk_GraspMask 1 GraspMaskRun.ALL_ROTATIONS [0; 5]%Q [] []
              [mk_ndarray (1, 1)%Z [[1%Q]]])
           [[255; 0]]%Z (0, 0)%Q).
  reflexivity.
Defined.

Section NormalizeOutcome.
Import GraspMaskRun.
Context {F : Type} {A : Arith F}.

Lemma np_uint8_range (x : F) : (0 <= np_uint8 x <= 255)%Z.
Proof.
  unfold np_uint8. destruct (to_int x) as [e|z]; [lia|].
  pose proof (Z.mod_pos_bound z 256 ltac:(lia)). lia.
Qed.
End NormalizeOutcome.

(** X17.  Normalisation raises exactly on a frame without samples, and
    then [ValueError]; on every other frame it returns an image of the
    same shape whose samples are 8-bit values. *)
Theorem normalize_depth_outcome {F : Type} {A : Arith F} (depth_image : list (list F)) :
  (concat depth_image = [] ->
   GraspMaskRun.normalize_depth depth_image = Raise ValueError) /\
  (concat depth_image <> [] ->
   exists out, GraspMaskRun.normalize_depth depth_image = Ok out /\
     map (@length Z) out = map (@length F) depth_image /\
     Forall (fun v => (0 <= v <= 255)%Z) (concat out)).
Proof.
  unfold GraspMaskRun.normalize_depth, GraspMaskRun.np_min, GraspMaskRun.np_max.
  destruct (concat depth_image) as [|x l]; split; try congruence; intros _;
    [reflexivity|].
  cbn [bind]. eexists. split; [reflexivity|]. split.
  - rewrite map_map. apply map_ext. intros r. apply length_map.
  - apply Forall_forall. intros v Hv. apply in_concat in Hv.
    destruct Hv as (r & Hr & Hv). apply in_map_iff in Hr. destruct Hr as (r0 & <- & _).
    apply in_map_iff in Hv. destruct Hv as (x0 & <- & _). apply np_uint8_range.
Qed.

(** * The entries of a mask *)

Section MaskContent.
Context {F : Type} {A : Arith F}.
Import GraspMask.
Local Open Scope num_scope.


Lemma map_block (f : F -> F) (h w : Z) (x : F) :
  map (map f) (block h w x) = block h w (f x).
Proof. unfold block. now rewrite !map_repeat. Qed.

Lemma band_rows (size : F) (v h w : Z) :
  to_int (size / of_Z 5) = Ok h ->
  to_int (of_Z 3 * size / of_Z 5) = Ok w ->
  (0 <= h)%Z -> (0 <= w)%Z ->
  band size v = Ok (mk_ndarray (h, w) (block h w (of_Z 1 * of_Z v))).
Proof.
  intros Hh Hw Ph Pw. unfold band.
  rewrite Hh; cbn [bind]. rewrite Hw; cbn [bind]. rewrite (np_ones_ok Ph Pw); cbn [bind].
  unfold scale, map_array. cbn [shape rows].
  fold (block h w (of_Z 1)). now rewrite map_block.
Qed.

Lemma base_mask_rows (size : F) (h w : Z) :
  to_int (size / of_Z 5) = Ok h ->
  to_int (of_Z 3 * size / of_Z 5) = Ok w ->
  (0 <= h)%Z -> (0 <= w)%Z ->
  exists m, base_mask size = Ok m /\
    rows m = concat (map (fun v => block h w ((of_Z 1 * of_Z v)
                                               / ((of_Z 3 / of_Z 2) * size * size)))
                       [-1; 0; 1; 0; -1]%Z).
Proof.
  intros Hh Hw Ph Pw. unfold base_mask.
  rewrite !(fun v => @band_rows size v h w Hh Hw Ph Pw). cbn [bind concatenate].
  unfold concat2 at 1. cbn [shape snd fst rows]. rewrite Z.eqb_refl. cbn [bind].
  unfold concat2 at 1. cbn [shape snd fst rows]. rewrite Z.eqb_refl. cbn [bind].
  unfold concat2 at 1. cbn [shape snd fst rows]. rewrite Z.eqb_refl. cbn [bind].
  unfold concat2 at 1. cbn [shape snd fst rows]. rewrite Z.eqb_refl. cbn [bind].
  eexists. split; [reflexivity|].
  unfold unscale, map_array. cbn [rows map concat].
  rewrite !map_app, !map_block, app_nil_r, <- !app_assoc. reflexivity.
Qed.
End MaskContent.

(** X18.  A mask is five bands of equal size stacked on top of each
    other, constant on each band: with [k] the weight divided by
    [(3/2) * size * size], its entries are [-k, 0, k, 0, -k] from the top
    band to the bottom band, as the code computes them. *)
Theorem mask_is_five_constant_bands (F : Type) (A : Arith F)
    (mask_sizes : list F) (weights : list Z) (i : nat) (size : F) (wt h w : Z) :
  nth_error mask_sizes i = Some size ->
  nth_error weights i = Some wt ->
  to_int (size / of_Z 5)%num = Ok h ->
  to_int (of_Z 3 * size / of_Z 5)%num = Ok w ->
  (0 <= h)%Z -> (0 <= w)%Z ->
  exists mask, GraspMask.mask_at mask_sizes weights i = Ok mask /\
    rows mask =
    concat (map (fun v => repeat (repeat
                   ((of_Z 1 * of_Z v) / ((of_Z 3 / of_Z 2) * size * size) * of_Z wt)%num
                   (Z.to_nat w)) (Z.to_nat h))
              [-1; 0; 1; 0; -1]%Z).
Proof.
  intros Hs Hwt Hh Hw Ph Pw. unfold GraspMask.mask_at.
  rewrite (getitem_nth_error _ _ Hs); cbn [bind].
  destruct (@base_mask_rows _ _ size h w Hh Hw Ph Pw) as (m & Em & Rm).
  rewrite Em; cbn [bind]. rewrite (getitem_nth_error _ _ Hwt); cbn [bind].
  eexists. split; [reflexivity|].
  unfold scale, map_array. cbn [rows]. rewrite Rm.
  cbn [map concat]. rewrite !map_app, !map_block. cbn [map]. reflexivity.
Qed.

(** X18, at the third mask of the default bank in double precision. *)
Lemma mask_is_five_constant_bands_witness :
  exists mask,
    @GraspMask.mask_at _ binary64 (@GraspMask.default_mask_sizes _ binary64)
      GraspMask.default_weights 2 = Ok mask /\
    rows mask =
    concat (map (fun v => repeat (repeat
                   (@mul _ binary64
                      (@div _ binary64 (@mul _ binary64 (@of_Z _ binary64 1) (@of_Z _ binary64 v))
                         (@mul _ binary64
                            (@mul _ binary64
                               (@div _ binary64 (@of_Z _ binary64 3) (@of_Z _ binary64 2))
                               (@div _ binary64 (@of_Z _ binary64 1024) (@of_Z _ binary64 12)))
                            (@div _ binary64 (@of_Z _ binary64 1024) (@of_Z _ binary64 12))))
                      (@of_Z _ binary64 3))
                   (Z.to_nat 51)) (Z.to_nat 17))
              [-1; 0; 1; 0; -1]%Z).
Proof.
  apply (@mask_is_five_constant_bands _ binary64 (@GraspMask.default_mask_sizes _ binary64)
           GraspMask.default_weights 2
           (@div _ binary64 (@of_Z _ binary64 1024) (@of_Z _ binary64 12)) 3%Z 17%Z 51%Z).
  1-2: reflexivity.
  1-2: vm_compute; reflexivity.
  1-2: discriminate.
Defined.

(** * The fitted curve *)

Section CurveEnds.
Import Pyefd Efd.
Local Open Scope R_scope.








End CurveEnds.



(** * The fit under translation *)

Section Translation.
Import Pyefd Efd.
Local Open Scope R_scope.
Variable v : R * R.








End Translation.


(** * The exceptions of [get_grasp] *)

Section EfdLengths.
Context {F : Type} {A : Arith F} {S' : Sqrt F} {T' : Trig F}.
Import Pyefd Efd.

Lemma np_linspace01_length (n : nat) : length (np_linspace01 n) = n.
Proof.
  destruct n as [|[|m]]; [reflexivity | reflexivity|].
  unfold np_linspace01. rewrite length_app, length_map, length_seq. cbn [length]. lia.
Qed.

Lemma add_harmonic_length (t xt : list F) (k : nat) (p q : F) :
  length xt = length t -> length (add_harmonic t xt k p q) = length t.
Proof.
  intros E. unfold add_harmonic. rewrite length_map, length_combine. lia.
Qed.

Lemma add_harmonics_length (t : list F) (coeffs : list (F * F * F * F)) :
  forall k xt yt, length xt = length t -> length yt = length t ->
    length (fst (add_harmonics t coeffs k xt yt)) = length t /\
    length (snd (add_harmonics t coeffs k xt yt)) = length t.
Proof.
  induction coeffs as [|[[[a b] c] d] coeffs IH]; intros k xt yt Hx Hy.
  - split; assumption.
  - cbn [add_harmonics]. apply IH; apply add_harmonic_length; assumption.
Qed.

Lemma get_curve_length (coeffs : list (F * F * F * F)) (locus : F * F) (n : nat) :
  length (fst (get_curve coeffs locus n)) = n /\
  length (snd (get_curve coeffs locus n)) = n.
Proof.
  unfold get_curve.
  pose proof (add_harmonics_length (np_linspace01 n) coeffs 0
                (map (fun one => (one * fst locus)%num) (repeat (of_Z 1) n))
                (map (fun one => (one * snd locus)%num) (repeat (of_Z 1) n))) as L.
  rewrite np_linspace01_length, !length_map, !repeat_length in L.
  exact (L eq_refl eq_refl).
Qed.

Lemma fit_curve_length (p : point F) (l : list (point F)) :
  length (fst (fit_curve (p :: l))) = 300 /\ length (snd (fit_curve (p :: l))) = 300.
Proof.
  unfold fit_curve, fit, calculate_dc_coefficients. cbn [getitem nth_error bind].
  apply get_curve_length.
Qed.
End EfdLengths.

Section OnlyIndexError.
Context {F : Type} {A : Arith F} {S' : Sqrt F} {T' : Trig F}.
Import Pyefd Efd.
Variable arccos : F -> F.

Lemma best_pair_cases (c : curve F) (n : nat) :
  indices_below c n ->
  best_pair arccos c = Raise IndexError \/ exists p, best_pair arccos c = Ok p.
Proof.
  intros (Hx & Hy & Hn & Hr).
  destruct (@collect_ok _ _ _ arccos c n _ Hx Hy Hn Hr) as (grasps & Ec & Hfrom).
  unfold best_pair. rewrite Ec. cbn [bind].
  destruct (sorted ltb (@snd (nat * nat) F) false grasps) as [|b rest] eqn:Es;
    [left; reflexivity|].
  right. cbn [getitem nth_error bind].
  assert (Hb : In b grasps).
  { apply (Permutation_in b (Permutation_sym (sorted_perm ltb (@snd _ _) false grasps))).
    rewrite Es. now left. }
  destruct b as [[bi bj] bs]. apply Hfrom in Hb. cbn [fst] in Hb.
  destruct (Hr bi bj Hb) as [Hbi Hbj]. cbn [fst snd].
  destruct (@getitem_ok _ (c_xt c) bi ltac:(lia)) as (x1 & -> & _).
  destruct (@getitem_ok _ (c_yt c) bi ltac:(lia)) as (y1 & -> & _).
  destruct (@getitem_ok _ (c_xt c) bj ltac:(lia)) as (x2 & -> & _).
  destruct (@getitem_ok _ (c_yt c) bj ltac:(lia)) as (y2 & -> & _).
  cbn [bind]. now exists ((x1, y1), (x2, y2)).
Qed.
End OnlyIndexError.

(** X21.  With the elliptic Fourier fit of the file as the curve fit,
    [get_grasp] raises on the empty contour; on every other contour the
    densified contour is fitted by a curve of 300 samples, the curve
    analysis succeeds, and the call either returns a pair or raises
    [IndexError] because no pair was retained.  No other exception is
    raised, in any arithmetic. *)
Theorem get_grasp_raises_only_IndexError {F : Type} {A : Arith F} {S' : Sqrt F}
    {T' : Trig F} (arccos : F -> F) (largest_contour : list (Pyefd.point F)) :
  (largest_contour = [] /\
   Pyefd.get_grasp arccos Efd.fit_curve largest_contour = Raise IndexError) \/
  (largest_contour <> [] /\
   exists outer_contour c,
     Pyefd.preprocess largest_contour = Ok outer_contour /\
     Pyefd.get_extremum_points Efd.fit_curve outer_contour = Ok c /\
     length (Pyefd.c_xt c) = 300 /\ length (Pyefd.c_yt c) = 300 /\
     Pyefd.get_grasp arccos Efd.fit_curve largest_contour = Pyefd.best_pair arccos c /\
     (Pyefd.best_pair arccos c = Raise IndexError \/
      exists p, Pyefd.best_pair arccos c = Ok p)).
Proof.
  unfold Pyefd.get_grasp.
  destruct (preprocess_cases largest_contour)
    as [[-> E] | (l1 & outer & l2 & out & Es & Hne & _ & _ & Hd & Hp)].
  - left. rewrite E. split; reflexivity.
  - right. split.
    { intros ->. cbn in Es. destruct l1 as [|x l1]; cbn in Es; injection Es as E1 E2;
        [congruence | destruct l1; discriminate]. }
    destruct outer as [|p0 t0]; [congruence|].
    change (Ok (p0 :: Pyefd.interleave (p0 :: t0)) = Ok out) in Hd.
    assert (Eo : p0 :: Pyefd.interleave (p0 :: t0) = out) by congruence.
    destruct (fit_curve_length p0 (Pyefd.interleave (p0 :: t0))) as [Lx Ly].
    rewrite Eo in Lx, Ly.
    assert (Lxy : length (fst (Efd.fit_curve out)) = length (snd (Efd.fit_curve out)))
      by congruence.
    destruct (@get_extremum_points_cases F A S' Efd.fit_curve out Lxy) as [_ Hok].
    rewrite Lx in Hok.
    destruct (Hok ltac:(lia)) as (c & Ec & Hxt & Hyt & Hn & Hr).
    assert (Hcx : length (Pyefd.c_xt c) = 300) by (rewrite Hxt; exact Lx).
    assert (Hcy : length (Pyefd.c_yt c) = 300) by (rewrite Hyt; exact Ly).
    exists out, c. rewrite Hp. cbn [bind]. rewrite Ec. cbn [bind].
    split; [reflexivity|]. split; [reflexivity|]. split; [exact Hcx|].
    split; [exact Hcy|]. split; [reflexivity|].
    apply (@best_pair_cases F A S' arccos c 300).
    split; [exact Hcx|]. split; [exact Hcy|]. split; [exact Hn|].
    intros i j Hin. destruct (Hr i j Hin). lia.
Qed.

(** * [get_grasp] under translation *)

Section Equivariance.
Import Pyefd Efd.
Local Open Scope R_scope.
Variable v : R * R.


























End Equivariance.

